(** * Company audit pipeline: text extraction, JSON recovery, retries, stages

    A shallow embedding of [pipeline.py]: the text extractor
    ([extract_text_content]), the fence stripper ([clean_json_string]), the
    recovery parser ([try_parse_json]), the retrying invocation wrapper
    ([invoke_model_with_retry]) and the four stages with their orchestrator
    ([run_full_pipeline]).

    Python values are an inductive type, a Python [str] is the list of its
    code points, exceptions are an explicit result type, and the stateful
    part (the model calls, [time.sleep], [self.stage_results]) is a state and
    error monad over a record that also keeps a log of what was called.

    Of the lines that the source prints, the embedding keeps those that can
    raise: the ones that splice in a text that comes from the caller or from
    a model (the name of the company, the message of an exception, keys and
    values of a decoded answer), which [sys.stdout] may be unable to encode,
    and the ones that compute a length.  The other lines are fixed text,
    numbers and the specification strings of [settings.py]. *)

From Stdlib Require Import ZArith NArith List String Ascii Lia Bool.
From stdpp Require Import base option list gmap.

Set Warnings "-register-all".
Open Scope Z_scope.

(** ** Python values *)

(** A [str] is a sequence of Unicode code points. *)
Definition str := list N.

(** An ASCII literal of the source, as a [str]. *)
Definition lit (s : string) : str := map N_of_ascii (list_ascii_of_string s).

(** The binary64 rounding of [float] is not modelled: a float that comes from
    a decimal literal is kept as [mantissa * 10 ^ exponent]. *)
Inductive pyfloat :=
| FNan
| FInf (negative : bool)
| FDec (mantissa exponent : Z).

(** The values that reach the pipeline: what [json.loads] builds, and what
    a response's [content] holds.  A [dict] keeps its insertion order; its
    keys are strings. *)
Inductive value :=
| VNone
| VBool (b : bool)
| VInt (n : Z)
| VFloat (f : pyfloat)
| VStr (s : str)
| VList (items : list value)
| VDict (entries : list (str * value)).

(** The exception classes the source tells apart in its [except] clauses,
    and those that the built-in functions it calls raise.
    [JSONDecodeError] and [UnicodeEncodeError] are subclasses of
    [ValueError]; [OtherException] is any further subclass of [Exception] (a
    [RecursionError], a provider's API error).  Signals outside [Exception],
    such as [KeyboardInterrupt], end the process and are not part of the
    model. *)
Inductive exn :=
| JSONDecodeError
| ValueError
| UnicodeEncodeError
| OverflowError
| TypeError
| AttributeError
| OtherException.

Inductive result (A : Type) :=
| Ok (a : A)
| Raise (e : exn).
Arguments Ok {A} a.
Arguments Raise {A} e.

(** [except json.JSONDecodeError] *)
Definition is_JSONDecodeError (e : exn) : bool :=
  match e with JSONDecodeError => true | _ => false end.

(** [except (json.JSONDecodeError, ValueError)] *)
Definition is_ValueError (e : exn) : bool :=
  match e with JSONDecodeError | ValueError | UnicodeEncodeError => true | _ => false end.

(** [isinstance(v, str)], [isinstance(v, dict)], [isinstance(v, (dict, list))] *)
Definition is_str (v : value) : bool :=
  match v with VStr _ => true | _ => false end.

Definition is_dict (v : value) : bool :=
  match v with VDict _ => true | _ => false end.

Definition is_dict_or_list (v : value) : bool :=
  match v with VDict _ | VList _ => true | _ => false end.

(** Truth value of a Python object, as [if not x] tests it. *)
Definition truthy (v : value) : bool :=
  match v with
  | VNone => false
  | VBool b => b
  | VInt n => negb (n =? 0)
  | VFloat FNan => true
  | VFloat (FInf _) => true
  | VFloat (FDec m _) => negb (m =? 0)
  | VStr s => match s with [] => false | _ => true end
  | VList l => match l with [] => false | _ => true end
  | VDict d => match d with [] => false | _ => true end
  end.

(** [k in d] and [d[k]] on a dict. *)
Fixpoint dict_get (k : str) (d : list (str * value)) : option value :=
  match d with
  | [] => None
  | (k', v) :: d' => if decide (k' = k) then Some v else dict_get k d'
  end.

(** [d[k] = v]: an existing key keeps its place, a new key goes last. *)
Fixpoint dict_set (k : str) (v : value) (d : list (str * value)) : list (str * value) :=
  match d with
  | [] => [(k, v)]
  | (k', v') :: d' => if decide (k' = k) then (k, v) :: d' else (k', v') :: dict_set k v d'
  end.

(** ** String operations of [str] *)

(** [c.isspace()] for one code point: the white space that [str.strip()]
    removes. *)
Definition isspace (c : N) : bool :=
  ((9 <=? c) && (c <=? 13) || (28 <=? c) && (c <=? 32) || (c =? 133) || (c =? 160)
   || (c =? 5760) || (8192 <=? c) && (c <=? 8202) || (c =? 8232) || (c =? 8233)
   || (c =? 8239) || (c =? 8287) || (c =? 12288))%N.

Fixpoint lstrip (s : str) : str :=
  match s with
  | c :: s' => if isspace c then lstrip s' else s
  | [] => []
  end.

Definition rstrip (s : str) : str := rev (lstrip (rev s)).

(** [s.strip()] *)
Definition strip (s : str) : str := rstrip (lstrip s).

(** [s.startswith(p)] *)
Fixpoint startswith (p s : str) : bool :=
  match p, s with
  | [], _ => true
  | a :: p', b :: s' => (a =? b)%N && startswith p' s'
  | _ :: _, [] => false
  end.

(** [s.endswith(p)] *)
Definition endswith (p s : str) : bool := startswith (rev p) (rev s).

(** [s[n:]] and [s[:-n]] for a literal [n]. *)
Definition drop_prefix (n : nat) (s : str) : str := skipn n s.
Definition drop_suffix (n : nat) (s : str) : str := firstn (length s - n) s.

(** [s[lo:hi]] for indices that are not negative. *)
Definition slice (lo hi : Z) (s : str) : str :=
  firstn (Z.to_nat (hi - lo)) (skipn (Z.to_nat lo) s).

(** [s.find(c)] for a one-character [c]: the first index, or [-1]. *)
Fixpoint find_from (c : N) (s : str) (i : Z) : Z :=
  match s with
  | [] => -1
  | a :: s' => if (a =? c)%N then i else find_from c s' (i + 1)
  end.

Definition find (c : N) (s : str) : Z := find_from c s 0.

(** [s.rfind(c)]: the last index, or [-1]. *)
Fixpoint rfind_from (c : N) (s : str) (i : Z) (last : Z) : Z :=
  match s with
  | [] => last
  | a :: s' => rfind_from c s' (i + 1) (if (a =? c)%N then i else last)
  end.

Definition rfind (c : N) (s : str) : Z := rfind_from c s 0 (-1).

(** [s.split(sep)] for a one-character [sep]: never an empty list. *)
Fixpoint split (sep : N) (s : str) : list str :=
  match s with
  | [] => [[]]
  | a :: s' =>
      if (a =? sep)%N then [] :: split sep s'
      else match split sep s' with
           | line :: lines => (a :: line) :: lines
           | [] => [[a]]
           end
  end.

(** [sep.join(parts)] on strings. *)
Fixpoint join (sep : str) (parts : list str) : str :=
  match parts with
  | [] => []
  | [p] => p
  | p :: ps => p ++ sep ++ join sep ps
  end.

(** The characters the source names. *)
(** [s.replace(old, "")] for an [old] that is not empty: the occurrences of
    [old], from the left and without overlap, are dropped.  [skip] is what
    is left to drop of the occurrence at hand. *)
Fixpoint remove_from (old s : str) (skip : nat) : str :=
  match s with
  | [] => []
  | c :: s' =>
      match skip with
      | S skip' => remove_from old s' skip'
      | O =>
          if startswith old s then remove_from old s' (length old - 1)
          else c :: remove_from old s' 0
      end
  end.

Definition remove_all (old s : str) : str := remove_from old s 0.

Definition newline : N := 10%N.
Definition hash : N := 35%N.
Definition lbrace : N := 123%N.
Definition rbrace : N := 125%N.
Definition lbracket : N := 91%N.
Definition rbracket : N := 93%N.

(** ** The Python runtime the source calls into

    [json.loads], [json.dumps], [str] and the encoding of [sys.stdout]
    belong to the interpreter, not to the repository: the embedding takes
    them as an interface, and [ReferenceRuntime] below gives an executable
    instance. *)
Class PyRuntime := {
  (** [json.loads(s)] on a [str] *)
  json_loads : str -> result value;
  (** [json.dumps(v, indent=2)] *)
  json_dumps : value -> str;
  (** [str(v)] for a [v] that is not a [str] *)
  py_repr : value -> str;
  (** whether the encoding of [sys.stdout] has the code point *)
  stdout_encodes : N -> bool
}.

(** [print(f"... {spliced} ...")]: a [UnicodeEncodeError] when [sys.stdout]
    cannot encode a character of the line.  The fixed text of the messages
    of the source is ASCII, which every encoding of [sys.stdout] has: a line
    is judged by the text that is spliced into it. *)
Definition py_print `{PyRuntime} (spliced : str) : result unit :=
  if forallb stdout_encodes spliced then Ok tt else Raise UnicodeEncodeError.

(** [str(v)], also what an f-string does with [{v}]. *)
Definition py_str `{PyRuntime} (v : value) : str :=
  match v with
  | VStr s => s
  | _ => py_repr v
  end.

(** [len(v)]: a [TypeError] on an object without a length. *)
Definition py_len (v : value) : result Z :=
  match v with
  | VStr s => Ok (Z.of_nat (length s))
  | VList l => Ok (Z.of_nat (length l))
  | VDict d => Ok (Z.of_nat (length d))
  | _ => Raise TypeError
  end.

(** ** Text extractor *)

(** The loop of [extract_text_content] over a list: the pieces appended to
    [text_parts], in order. *)
Fixpoint text_parts_of (content : list value) : list value :=
  match content with
  | [] => []
  | item :: rest =>
      match item with
      | VDict d =>
          match dict_get (lit "text") d with
          | Some t => t :: text_parts_of rest
          | None =>
              match dict_get (lit "content") d with
              | Some c => c :: text_parts_of rest
              | None => text_parts_of rest
              end
          end
      | VStr _ => item :: text_parts_of rest
      | _ => text_parts_of rest
      end
  end.

(** The strings of a list of values, when all of them are strings. *)
Fixpoint all_strs (parts : list value) : option (list str) :=
  match parts with
  | [] => Some []
  | VStr s :: rest =>
      match all_strs rest with
      | Some ss => Some (s :: ss)
      | None => None
      end
  | _ :: _ => None
  end.

(** [sep.join(parts)]: a [TypeError] when an item is not a [str]. *)
Definition py_join (sep : str) (parts : list value) : result value :=
  match all_strs parts with
  | Some ss => Ok (VStr (join sep ss))
  | None => Raise TypeError
  end.

Definition extract_text_content `{PyRuntime} (content : value) : result value :=
  match content with
  | VStr _ => Ok content
  | VList items =>
      let text_parts := text_parts_of items in
      match text_parts with
      | [] => Ok (VStr (py_str content))
      | _ :: _ => py_join [newline] text_parts
      end
  | VDict d =>
      match dict_get (lit "text") d with
      | Some t => Ok t
      | None =>
          match dict_get (lit "content") d with
          | Some c => Ok c
          | None => Ok (VStr (py_str content))
          end
      end
  | _ => Ok (VStr (py_str content))
  end.

(** ** Recovery parser *)

(** [clean_json_string] on a [str]: strip, drop an opening fence, drop a
    closing fence, strip. *)
Definition strip_fences (json_str : str) : str :=
  let json_str := strip json_str in
  let json_str :=
    if startswith (lit "```json") json_str then drop_prefix 7 json_str
    else if startswith (lit "```") json_str then drop_prefix 3 json_str
    else json_str in
  let json_str :=
    if endswith (lit "```") json_str then drop_suffix 3 json_str
    else json_str in
  strip json_str.

Definition clean_json_string (json_str : value) : value :=
  match json_str with
  | VStr s => VStr (strip_fences s)
  | _ => json_str
  end.

(** How one strategy of [try_parse_json] ends: it returns a value, it lets
    an exception out to the caller, or control goes on to the next one. *)
Inductive attempt :=
| Returned (v : value)
| Propagated (e : exn)
| Next.

(** [try: return json.loads(text)  except <caught>: pass] *)
Definition try_loads `{PyRuntime} (caught : exn -> bool) (text : str) : attempt :=
  match json_loads text with
  | Ok v => Returned v
  | Raise e => if caught e then Next else Propagated e
  end.

(** Strategy 1: direct parse. *)
Definition strategy_1 `{PyRuntime} (json_str : str) : attempt :=
  try_loads is_JSONDecodeError json_str.

(** Strategy 2: the fence-stripped text, when it differs from the input. *)
Definition strategy_2 `{PyRuntime} (json_str cleaned : str) : attempt :=
  if decide (cleaned <> json_str) then try_loads is_JSONDecodeError cleaned
  else Next.

(** Strategies 3 and 4: from the first [opening] to the last [closing]. *)
Definition strategy_between `{PyRuntime} (opening closing : N) (cleaned : str) : attempt :=
  let first := find opening cleaned in
  let last := rfind closing cleaned in
  if negb (first =? -1) && negb (last =? -1) && (first <? last) then
    let extracted := slice first (last + 1) cleaned in
    try_loads is_ValueError extracted
  else Next.

Definition strategy_3 `{PyRuntime} (cleaned : str) : attempt :=
  strategy_between lbrace rbrace cleaned.

Definition strategy_4 `{PyRuntime} (cleaned : str) : attempt :=
  strategy_between lbracket rbracket cleaned.

(** Strategy 5: without blank lines and lines that start with [#]. *)
Definition json_line (line : str) : bool :=
  match strip line with
  | [] => false
  | _ :: _ => negb (startswith [hash] (strip line))
  end.

Definition strategy_5 `{PyRuntime} (cleaned : str) : attempt :=
  let lines := split newline cleaned in
  let json_lines := List.filter json_line lines in
  let json_str_reconstructed := join [newline] json_lines in
  try_loads is_ValueError json_str_reconstructed.

(** Strategy 6: every substring, by start index, then by end index; the
    first one that decodes to a dict or a list.  A [ValueError] moves on to
    the next substring, any other exception ends the scan. *)
Fixpoint scan_ends `{PyRuntime} (cleaned : str) (start_idx : nat) (ends : list nat) : attempt :=
  match ends with
  | [] => Next
  | end_idx :: ends' =>
      match json_loads (slice (Z.of_nat start_idx) (Z.of_nat end_idx) cleaned) with
      | Ok v => if is_dict_or_list v then Returned v else scan_ends cleaned start_idx ends'
      | Raise e => if is_ValueError e then scan_ends cleaned start_idx ends' else Propagated e
      end
  end.

Fixpoint scan_starts `{PyRuntime} (cleaned : str) (starts : list nat) : attempt :=
  match starts with
  | [] => Next
  | start_idx :: starts' =>
      match scan_ends cleaned start_idx (seq (S start_idx) (length cleaned - start_idx)) with
      | Next => scan_starts cleaned starts'
      | a => a
      end
  end.

Definition strategy_6 `{PyRuntime} (cleaned : str) : attempt :=
  match scan_starts cleaned (seq 0 (length cleaned)) with
  | Returned v => Returned v
  | Propagated _ => Next
  | Next => Next
  end.

(** Sequencing of the strategies. *)
Definition or_else (a : attempt) (rest : result value) : result value :=
  match a with
  | Returned v => Ok v
  | Propagated e => Raise e
  | Next => rest
  end.

Definition try_parse_json `{PyRuntime} (json_str : value) : result value :=
  match json_str with
  | VDict _ => Ok json_str
  | VStr s =>
      let original_str := s in
      let cleaned := strip_fences s in
      or_else (strategy_1 s)
     (or_else (strategy_2 s cleaned)
     (or_else (strategy_3 cleaned)
     (or_else (strategy_4 cleaned)
     (or_else (strategy_5 cleaned)
     (or_else (strategy_6 cleaned)
     (Ok (VStr original_str)))))))
  | _ => Ok json_str
  end.

(** ** The stateful part: model calls, sleeping, stage results *)

(** What a model hands back: an object with a [content]. *)
Record response := { content : value }.

(** One [model.invoke(...)]: a response, or an exception.  The handler of
    the wrapper prints the first hundred characters of the message of the
    exception: [Failed] is an exception with a message that [sys.stdout]
    encodes, [Unprintable] one with a message that it cannot encode. *)
Inductive call :=
| Responded (r : response)
| Failed (e : exn)
| Unprintable (e : exn).

(** What a run leaves behind, in order: the banner a stage prints when it is
    entered, each call of a model with the zero-based attempt number the
    wrapper prints for it, and each [time.sleep]. *)
Inductive event :=
| EStage (n : nat)
| EAttempt (attempt : Z) (prompt : str) (outcome : call)
| ESleep (wait_time : Z).

(** The outside world: what a model answers, which may depend on everything
    that happened before, what the passing of time does to it, and the
    longest time, in seconds, that [time.sleep] takes. *)
Class Oracle (W Model : Type) := {
  invoke : Model -> str -> W -> call * W;
  elapse : Z -> W -> W;
  sleep_max : Z
}.

(** The fixed text of the four prompts, around the places where the
    f-strings splice values in. *)
Class Prompts := {
  stage_1_text : str -> str;
  stage_2_head : str;
  stage_2_tail : str;
  stage_3_head : str;
  stage_3_mid : str;
  stage_3_tail : str;
  stage_4_head : str;
  stage_4_tail : str
}.

Record state (W : Type) := {
  world : W;
  log : list event;
  stage_results : gmap str value
}.
Arguments world {W} _.
Arguments log {W} _.
Arguments stage_results {W} _.

(** Computations that read and change the state and may raise. *)
Definition M (W A : Type) : Type := state W -> result A * state W.

Definition ret {W A} (a : A) : M W A := fun st => (Ok a, st).

Definition bind {W A B} (m : M W A) (k : A -> M W B) : M W B :=
  fun st =>
    match m st with
    | (Ok a, st') => k a st'
    | (Raise e, st') => (Raise e, st')
    end.

Notation "x <- c1 ;; c2" := (bind c1 (fun x => c2))
  (at level 100, c1 at next level, right associativity).

(** A pure computation that may raise. *)
Definition lift {W A} (r : result A) : M W A := fun st => (r, st).

(** [try: body  except Exception as e: handler] *)
Definition try_except {W A} (body : M W A) (handler : exn -> M W A) : M W A :=
  fun st =>
    match body st with
    | (Ok a, st') => (Ok a, st')
    | (Raise e, st') => handler e st'
    end.

Definition log_event {W} (ev : event) : M W unit :=
  fun st => (Ok tt, {| world := world st; log := log st ++ [ev];
                       stage_results := stage_results st |}).

(** [self.stage_results[key] = v] *)
Definition set_result {W} (key : str) (v : value) : M W unit :=
  fun st => (Ok tt, {| world := world st; log := log st;
                       stage_results := <[key := v]> (stage_results st) |}).

Section Pipeline.
Context `{PyRuntime} `{Prompts} {W Model : Type} `{Oracle W Model}.

(** [model.invoke([HumanMessage(content=prompt)])] inside the [try] of the
    wrapper, with the attempt it belongs to. *)
Definition model_invoke (model : Model) (prompt : str) (attempt : Z) : M W call :=
  fun st =>
    let (outcome, w) := invoke model prompt (world st) in
    (Ok outcome, {| world := w; log := log st ++ [EAttempt attempt prompt outcome];
                    stage_results := stage_results st |}).

(** [time.sleep(secs)]: a [ValueError] on a negative length, an
    [OverflowError] on one that is too long. *)
Definition time_sleep (secs : Z) : M W unit :=
  fun st =>
    if secs <? 0 then (Raise ValueError, st)
    else if sleep_max <? secs then (Raise OverflowError, st)
    else (Ok tt, {| world := elapse secs (world st); log := log st ++ [ESleep secs];
                    stage_results := stage_results st |}).

(** The loop [for attempt in range(max_retries)], from [attempt] on, with
    [remaining] iterations left.  An exception that the handler raises, from
    [print] or from [time.sleep], leaves the loop and the wrapper. *)
Fixpoint retry_loop (model : Model) (prompt : str) (max_retries initial_wait : Z)
         (remaining : nat) (attempt : Z) : M W (option response) :=
  match remaining with
  | O => ret None
  | S remaining' =>
      outcome <- model_invoke model prompt attempt ;;
      match outcome with
      | Responded r => ret (Some r)
      | Unprintable _ => lift (Raise UnicodeEncodeError)
      | Failed _ =>
          if attempt <? max_retries - 1 then
            let wait_time := initial_wait * 2 ^ attempt in
            _ <- time_sleep wait_time ;;
            retry_loop model prompt max_retries initial_wait remaining' (attempt + 1)
          else ret None
      end
  end.

(** The label [model_name] of the lines that the wrapper prints is left
    out: the stages pass the specification strings of [settings.py], which
    are ASCII. *)
Definition invoke_model_with_retry (model : Model) (prompt : str)
           (max_retries initial_wait : Z) : M W (option response) :=
  retry_loop model prompt max_retries initial_wait (Z.to_nat max_retries) 0.

(** [self], after [__init__]: the company and the model of each stage. *)
Record pipeline := {
  company_name : str;
  stage_1_model : option Model;
  stage_2_model : option Model;
  stage_3_model : option Model;
  stage_4_model : option Model
}.

(** [json.dumps(v, indent=2) if isinstance(v, dict) else str(v)] *)
Definition format_for_prompt (v : value) : str :=
  if is_dict v then json_dumps v else py_str v.

Definition stage_1_prompt (self : pipeline) : str :=
  stage_1_text (company_name self).

Definition stage_2_prompt (company_details : value) : str :=
  stage_2_head ++ py_str company_details ++ stage_2_tail.

Definition stage_3_prompt (company_details questions : value) : str :=
  let questions_text := format_for_prompt questions in
  stage_3_head ++ py_str company_details ++ stage_3_mid ++ questions_text ++ stage_3_tail.

Definition stage_4_prompt (questions answers : value) : str :=
  let answers_text := format_for_prompt answers in
  let questions_text := format_for_prompt questions in
  stage_4_head ++ answers_text ++ stage_4_tail.

(** The progress lines a stage prints once it has stored its result, for
    the exceptions they can raise.  Stage 1 prints [len(details)]. *)
Definition report_1 (details : value) : result unit :=
  match py_len details with
  | Ok _ => Ok tt
  | Raise e => Raise e
  end.

(** Stage 2 prints, for a dict, two counts and the keys that end in
    [_questions], without that ending; for anything else, [len(str(...))]. *)
Definition report_2 (questions_json : value) : result unit :=
  match questions_json with
  | VDict d =>
      let stakeholders := List.filter (endswith (lit "_questions")) (map fst d) in
      py_print (concat (map (remove_all (lit "_questions")) stakeholders))
  | _ => Ok tt
  end.

(** Stage 3 prints [len(answers_json.get("responses", []))] for a dict. *)
Definition report_3 (answers_json : value) : result unit :=
  match answers_json with
  | VDict d =>
      match py_len (default (VList []) (dict_get (lit "responses") d)) with
      | Ok _ => Ok tt
      | Raise e => Raise e
      end
  | _ => Ok tt
  end.

(** Stage 4 reads [summary.get(...)] on [scores_json["overall_summary"]],
    an [AttributeError] when that is not a dict, and prints the two values
    it gets, or [N/A]. *)
Definition report_4 (scores_json : value) : result unit :=
  match scores_json with
  | VDict d =>
      match dict_get (lit "overall_summary") d with
      | Some (VDict summary) =>
          let avg_logic :=
            default (VStr (lit "N/A")) (dict_get (lit "average_logical_score") summary) in
          let risk_signal :=
            default (VStr (lit "N/A")) (dict_get (lit "overall_company_risk_signal") summary) in
          match py_print (py_str avg_logic) with
          | Ok _ => py_print (py_str risk_signal)
          | Raise e => Raise e
          end
      | Some _ => Raise AttributeError
      | None => Ok tt
      end
  | _ => Ok tt
  end.

(** A stage returns [None] as [VNone].  The handler of its [try] prints the
    exception it has caught; the messages of the exceptions that reach it
    (from the wrapper, the extractor, the parser and the progress lines) are
    ASCII. *)
Definition stage_1_company_details (self : pipeline) : M W value :=
  _ <- log_event (EStage 1) ;;
  match stage_1_model self with
  | None => ret VNone
  | Some model =>
      let prompt := stage_1_prompt self in
      try_except
        (response <- invoke_model_with_retry model prompt 3 2 ;;
         match response with
         | None => ret VNone
         | Some response =>
             details <- lift (extract_text_content (content response)) ;;
             _ <- set_result (lit "company_details") details ;;
             _ <- lift (report_1 details) ;;
             ret details
         end)
        (fun _ => ret VNone)
  end.

Definition stage_2_generate_questions (self : pipeline) (company_details : value) : M W value :=
  _ <- log_event (EStage 2) ;;
  match stage_2_model self with
  | None => ret VNone
  | Some model =>
      if negb (truthy company_details) then ret VNone
      else
        let prompt := stage_2_prompt company_details in
        try_except
          (response <- invoke_model_with_retry model prompt 3 2 ;;
           match response with
           | None => ret VNone
           | Some response =>
               questions_text <- lift (extract_text_content (content response)) ;;
               questions_json <- lift (try_parse_json questions_text) ;;
               _ <- set_result (lit "questions") questions_json ;;
               _ <- lift (report_2 questions_json) ;;
               ret questions_json
           end)
          (fun _ => ret VNone)
  end.

Definition stage_3_answer_questions (self : pipeline) (company_details questions : value)
  : M W value :=
  _ <- log_event (EStage 3) ;;
  match stage_3_model self with
  | None => ret VNone
  | Some model =>
      if negb (truthy questions) || negb (truthy company_details) then ret VNone
      else
        let prompt := stage_3_prompt company_details questions in
        try_except
          (response <- invoke_model_with_retry model prompt 3 3 ;;
           match response with
           | None => ret VNone
           | Some response =>
               answers_text <- lift (extract_text_content (content response)) ;;
               answers_json <- lift (try_parse_json answers_text) ;;
               _ <- set_result (lit "answers") answers_json ;;
               _ <- lift (report_3 answers_json) ;;
               ret answers_json
           end)
          (fun _ => ret VNone)
  end.

Definition stage_4_score_results (self : pipeline) (questions answers : value) : M W value :=
  _ <- log_event (EStage 4) ;;
  match stage_4_model self with
  | None => ret VNone
  | Some model =>
      if negb (truthy answers) then ret VNone
      else
        let prompt := stage_4_prompt questions answers in
        try_except
          (response <- invoke_model_with_retry model prompt 3 2 ;;
           match response with
           | None => ret VNone
           | Some response =>
               scores_text <- lift (extract_text_content (content response)) ;;
               scores_json <- lift (try_parse_json scores_text) ;;
               _ <- set_result (lit "scores") scores_json ;;
               _ <- lift (report_4 scores_json) ;;
               ret scores_json
           end)
          (fun _ => ret VNone)
  end.

(** The run opens with a line that has the name of the company in it,
    outside any [try]. *)
Definition run_full_pipeline (self : pipeline) : M W bool :=
  _ <- lift (py_print (company_name self)) ;;
  company_details <- stage_1_company_details self ;;
  if negb (truthy company_details) then ret false
  else
    questions <- stage_2_generate_questions self company_details ;;
    if negb (truthy questions) then ret false
    else
      answers <- stage_3_answer_questions self company_details questions ;;
      if negb (truthy answers) then ret false
      else
        scores <- stage_4_score_results self questions answers ;;
        if negb (truthy scores) then ret false
        else ret true.

(** The state of a pipeline that [__init__] has just built. *)
Definition fresh (w : W) : state W :=
  {| world := w; log := []; stage_results := ∅ |}.

End Pipeline.

(** ** An executable runtime

    [ReferenceRuntime] is an instance of [PyRuntime] that computes: a decoder
    for the grammar that [json.loads] accepts with its default arguments, and
    printers for [json.dumps(_, indent=2)] and [str].  It follows CPython on
    the values above.  Not modelled: the rounding of floats and their
    shortest printing (a float prints as mantissa, [e], exponent), the limit
    on the digits of an integer literal, the recursion limit, and which code
    points above 127 [repr] holds for printable (it escapes none of them). *)

Module Json.

Definition quote : N := 34%N.
Definition backslash : N := 92%N.
Definition comma : N := 44%N.
Definition colon : N := 58%N.
Definition minus : N := 45%N.
Definition plus : N := 43%N.
Definition dot : N := 46%N.

(** [WHITESPACE]: space, tab, line feed, carriage return. *)
Definition is_ws (c : N) : bool :=
  ((c =? 32) || (c =? 9) || (c =? 10) || (c =? 13))%N.

Fixpoint skip_ws (s : str) : str :=
  match s with
  | c :: s' => if is_ws c then skip_ws s' else s
  | [] => []
  end.

Definition is_digit (c : N) : bool := ((48 <=? c) && (c <=? 57))%N.

(** The longest run of digits at the head of [s], and what follows it. *)
Fixpoint span_digits (s : str) : list N * str :=
  match s with
  | c :: s' =>
      if is_digit c then let (ds, rest) := span_digits s' in (c :: ds, rest)
      else ([], s)
  | [] => ([], [])
  end.

Definition Z_of_digits (ds : list N) : Z :=
  fold_left (fun acc d => 10 * acc + Z.of_N (d - 48)) ds 0.

Definition hex_val (c : N) : option N :=
  if is_digit c then Some (c - 48)%N
  else if ((97 <=? c) && (c <=? 102))%N then Some (c - 87)%N
  else if ((65 <=? c) && (c <=? 70))%N then Some (c - 55)%N
  else None.

(** The four hex digits of a unicode escape. *)
Definition hex4 (s : str) : option (N * str) :=
  match s with
  | a :: b :: c :: d :: rest =>
      match hex_val a, hex_val b, hex_val c, hex_val d with
      | Some x, Some y, Some z, Some w => Some ((((x * 16 + y) * 16 + z) * 16 + w)%N, rest)
      | _, _, _, _ => None
      end
  | _ => None
  end.

Definition is_high_surrogate (u : N) : bool := ((55296 <=? u) && (u <=? 56319))%N.
Definition is_low_surrogate (u : N) : bool := ((56320 <=? u) && (u <=? 57343))%N.
Definition join_surrogates (hi lo : N) : N :=
  (65536 + ((hi - 55296) * 1024 + (lo - 56320)))%N.

(** The one-letter escapes. *)
Definition simple_escape (c : N) : option N :=
  if (c =? 34)%N then Some 34%N            (* a quote *)
  else if (c =? 92)%N then Some 92%N       (* a backslash *)
  else if (c =? 47)%N then Some 47%N       (* a slash *)
  else if (c =? 98)%N then Some 8%N        (* b: backspace *)
  else if (c =? 102)%N then Some 12%N      (* f: form feed *)
  else if (c =? 110)%N then Some 10%N      (* n: line feed *)
  else if (c =? 114)%N then Some 13%N      (* r: carriage return *)
  else if (c =? 116)%N then Some 9%N       (* t: tab *)
  else None.

(** A string literal after its opening quote: the decoded text (built in
    reverse in [acc]) and what follows the closing quote.  Control
    characters are refused, as [strict=True] does. *)
Fixpoint scan_string (fuel : nat) (s : str) (acc : str) : option (str * str) :=
  match fuel with
  | O => None
  | S fuel' =>
      match s with
      | [] => None
      | c :: rest =>
          if (c =? quote)%N then Some (rev acc, rest)
          else if (c =? backslash)%N then
            match rest with
            | [] => None
            | e :: rest1 =>
                if (e =? 117)%N then
                  match hex4 rest1 with
                  | None => None
                  | Some (u, rest2) =>
                      match rest2 with
                      | b :: u' :: rest3 =>
                          if is_high_surrogate u && (b =? backslash)%N && (u' =? 117)%N then
                            match hex4 rest3 with
                            | None => None
                            | Some (u2, rest4) =>
                                if is_low_surrogate u2
                                then scan_string fuel' rest4 (join_surrogates u u2 :: acc)
                                else scan_string fuel' rest2 (u :: acc)
                            end
                          else scan_string fuel' rest2 (u :: acc)
                      | _ => scan_string fuel' rest2 (u :: acc)
                      end
                  end
                else
                  match simple_escape e with
                  | Some ch => scan_string fuel' rest1 (ch :: acc)
                  | None => None
                  end
            end
          else if (c <? 32)%N then None
          else scan_string fuel' rest (c :: acc)
      end
  end.

(** A number at the head of [s]: an [int] without fraction and exponent,
    a [float] otherwise. *)
Definition scan_number (s : str) : option (value * str) :=
  let (negative, s1) :=
    match s with
    | c :: s' => if (c =? minus)%N then (true, s') else (false, s)
    | [] => (false, s)
    end in
  let sign := if negative then (-1) else 1 in
  let int_part :=
    match s1 with
    | c :: s' =>
        if (c =? 48)%N then Some ([c], s')
        else if is_digit c then Some (span_digits s1)
        else None
    | [] => None
    end in
  match int_part with
  | None => None
  | Some (ds, s2) =>
      let '(frac, s3) :=
        match s2 with
        | p :: d :: _ =>
            if (p =? dot)%N && is_digit d then span_digits (tl s2) else ([], s2)
        | _ => ([], s2)
        end in
      let '(expo, s4) :=
        match s3 with
        | e :: s' =>
            if ((e =? 101) || (e =? 69))%N then
              let (esign, s'') :=
                match s' with
                | c :: t => if (c =? minus)%N then (-1, t)
                            else if (c =? plus)%N then (1, t) else (1, s')
                | [] => (1, s')
                end in
              match span_digits s'' with
              | ([], _) => (None, s3)
              | (eds, rest) => (Some (esign * Z_of_digits eds), rest)
              end
            else (None, s3)
        | [] => (None, s3)
        end in
      match frac, expo with
      | [], None => Some (VInt (sign * Z_of_digits ds), s4)
      | _, _ =>
          Some (VFloat (FDec (sign * Z_of_digits (ds ++ frac))
                             (default 0 expo - Z.of_nat (length frac))), s4)
      end
  end.

(** [strip_prefix p s]: what follows [p] in [s], when [s] starts with it. *)
Fixpoint strip_prefix (p s : str) : option str :=
  match p, s with
  | [], _ => Some s
  | a :: p', b :: s' => if (a =? b)%N then strip_prefix p' s' else None
  | _ :: _, [] => None
  end.

(** [null], [true], [false], [NaN], [Infinity], [-Infinity]. *)
Definition scan_constant (s : str) : option (value * str) :=
  match strip_prefix (lit "null") s with
  | Some r => Some (VNone, r)
  | None =>
  match strip_prefix (lit "true") s with
  | Some r => Some (VBool true, r)
  | None =>
  match strip_prefix (lit "false") s with
  | Some r => Some (VBool false, r)
  | None =>
  match strip_prefix (lit "NaN") s with
  | Some r => Some (VFloat FNan, r)
  | None =>
  match strip_prefix (lit "Infinity") s with
  | Some r => Some (VFloat (FInf false), r)
  | None =>
  match strip_prefix (lit "-Infinity") s with
  | Some r => Some (VFloat (FInf true), r)
  | None => None
  end end end end end end.

(** [scan_once]: one JSON term at the head of [s].  Every nested call
    spends one unit of [fuel]. *)
Fixpoint scan_once (fuel : nat) (s : str) : option (value * str) :=
  match fuel with
  | O => None
  | S fuel' =>
      match s with
      | [] => None
      | c :: rest =>
          if (c =? quote)%N then
            match scan_string (length rest) rest [] with
            | Some (text, r) => Some (VStr text, r)
            | None => None
            end
          else if (c =? lbrace)%N then
            match skip_ws rest with
            | c1 :: r1 =>
                if (c1 =? rbrace)%N then Some (VDict [], r1)
                else scan_members fuel' (skip_ws rest) []
            | [] => None
            end
          else if (c =? lbracket)%N then
            match skip_ws rest with
            | c1 :: r1 =>
                if (c1 =? rbracket)%N then Some (VList [], r1)
                else scan_elements fuel' (skip_ws rest) []
            | [] => None
            end
          else
            match scan_constant s with
            | Some found => Some found
            | None => scan_number s
            end
      end
  end
with scan_elements (fuel : nat) (s : str) (acc : list value) : option (value * str) :=
  match fuel with
  | O => None
  | S fuel' =>
      match scan_once fuel' s with
      | None => None
      | Some (v, r) =>
          match skip_ws r with
          | c :: r1 =>
              if (c =? rbracket)%N then Some (VList (acc ++ [v]), r1)
              else if (c =? comma)%N then scan_elements fuel' (skip_ws r1) (acc ++ [v])
              else None
          | [] => None
          end
      end
  end
with scan_members (fuel : nat) (s : str) (acc : list (str * value)) : option (value * str) :=
  match fuel with
  | O => None
  | S fuel' =>
      match s with
      | q :: s1 =>
          if (q =? quote)%N then
            match scan_string (length s1) s1 [] with
            | None => None
            | Some (key, r) =>
                match skip_ws r with
                | c :: r1 =>
                    if (c =? colon)%N then
                      match scan_once fuel' (skip_ws r1) with
                      | None => None
                      | Some (v, r2) =>
                          match skip_ws r2 with
                          | c2 :: r3 =>
                              if (c2 =? rbrace)%N then Some (VDict (dict_set key v acc), r3)
                              else if (c2 =? comma)%N
                              then scan_members fuel' (skip_ws r3) (dict_set key v acc)
                              else None
                          | [] => None
                          end
                      end
                    else None
                | [] => None
                end
            end
          else None
      | [] => None
      end
  end.

(** [json.loads(s)]: a byte order mark is refused, white space around the
    term is skipped, anything after it is an error. *)
Definition loads (s : str) : result value :=
  match s with
  | 65279%N :: _ => Raise JSONDecodeError
  | _ =>
      match scan_once (2 * length s + 2) (skip_ws s) with
      | Some (v, rest) =>
          match skip_ws rest with
          | [] => Ok v
          | _ :: _ => Raise JSONDecodeError
          end
      | None => Raise JSONDecodeError
      end
  end.

End Json.

Module Printer.

(** The decimal digits of [n], most significant first. *)
Fixpoint digits_of (fuel : nat) (n : N) (acc : str) : str :=
  match fuel with
  | O => acc
  | S fuel' =>
      let acc' := (48 + n mod 10)%N :: acc in
      if (n / 10 =? 0)%N then acc' else digits_of fuel' (n / 10)%N acc'
  end.

Definition str_of_Z (z : Z) : str :=
  let n := Z.to_N (Z.abs z) in
  (if z <? 0 then [Json.minus] else []) ++ digits_of (S (N.to_nat (N.log2 n))) n [].

Definition hex_digit (d : N) : N := (if d <? 10 then 48 + d else 87 + d)%N.

Definition hex2 (c : N) : str := [hex_digit (c / 16 mod 16); hex_digit (c mod 16)]%N.

Definition hex4 (c : N) : str := hex2 (c / 256)%N ++ hex2 c.

Definition str_of_float (nan inf : string) (f : pyfloat) : str :=
  match f with
  | FNan => lit nan
  | FInf negative => (if negative then [Json.minus] else []) ++ lit inf
  | FDec m e => str_of_Z m ++ lit "e" ++ str_of_Z e
  end.

(** One character of a JSON string, as [ensure_ascii=True] writes it. *)
Definition json_char (c : N) : str :=
  if (c =? 34)%N then [Json.backslash; 34%N]
  else if (c =? 92)%N then [Json.backslash; 92%N]
  else if (c =? 10)%N then lit "\n"
  else if (c =? 13)%N then lit "\r"
  else if (c =? 9)%N then lit "\t"
  else if (c =? 8)%N then lit "\b"
  else if (c =? 12)%N then lit "\f"
  else if ((32 <=? c) && (c <=? 126))%N then [c]
  else if (c <? 65536)%N then lit "\u" ++ hex4 c
  else
    let v := (c - 65536)%N in
    lit "\u" ++ hex4 (55296 + v / 1024)%N ++ lit "\u" ++ hex4 (56320 + v mod 1024)%N.

Definition json_string (s : str) : str :=
  [Json.quote] ++ concat (map json_char s) ++ [Json.quote].

Definition indentation (level : nat) : str := repeat 32%N (2 * level).

(** [json.dumps(v, indent=2)], at nesting depth [level]. *)
Fixpoint dumps_at (level : nat) (v : value) {struct v} : str :=
  match v with
  | VNone => lit "null"
  | VBool true => lit "true"
  | VBool false => lit "false"
  | VInt n => str_of_Z n
  | VFloat f => str_of_float "NaN" "Infinity" f
  | VStr s => json_string s
  | VList [] => lit "[]"
  | VList items =>
      lit "[" ++ [newline] ++ indentation (S level)
      ++ join (lit "," ++ [newline] ++ indentation (S level)) (map (dumps_at (S level)) items)
      ++ [newline] ++ indentation level ++ lit "]"
  | VDict [] => lit "{}"
  | VDict entries =>
      lit "{" ++ [newline] ++ indentation (S level)
      ++ join (lit "," ++ [newline] ++ indentation (S level))
           (map (fun kv => json_string (fst kv) ++ lit ": " ++ dumps_at (S level) (snd kv))
                entries)
      ++ [newline] ++ indentation level ++ lit "}"
  end.

(** One character inside the quotes of [repr(s)]. *)
Definition repr_char (q : N) (c : N) : str :=
  if (c =? 92)%N then [Json.backslash; 92%N]
  else if (c =? q)%N then [Json.backslash; q]
  else if (c =? 10)%N then lit "\n"
  else if (c =? 13)%N then lit "\r"
  else if (c =? 9)%N then lit "\t"
  else if ((c <? 32) || (c =? 127))%N then lit "\x" ++ hex2 c
  else [c].

Definition has_char (c : N) (s : str) : bool := existsb (N.eqb c) s.

(** [repr(s)]: double quotes only for a text with a single quote and no
    double quote. *)
Definition repr_str (s : str) : str :=
  let q := if has_char 39%N s && negb (has_char 34%N s) then 34%N else 39%N in
  [q] ++ concat (map (repr_char q) s) ++ [q].

(** [repr(v)], which is [str(v)] when [v] is not a [str]. *)
Fixpoint repr (v : value) {struct v} : str :=
  match v with
  | VNone => lit "None"
  | VBool true => lit "True"
  | VBool false => lit "False"
  | VInt n => str_of_Z n
  | VFloat f => str_of_float "nan" "inf" f
  | VStr s => repr_str s
  | VList items => lit "[" ++ join (lit ", ") (map repr items) ++ lit "]"
  | VDict entries =>
      lit "{"
      ++ join (lit ", ") (map (fun kv => repr_str (fst kv) ++ lit ": " ++ repr (snd kv)) entries)
      ++ lit "}"
  end.

End Printer.

(** [sys.stdout] in UTF-8: every code point but the surrogates. *)
Definition ReferenceRuntime : PyRuntime :=
  {| json_loads := Json.loads;
     json_dumps := Printer.dumps_at 0;
     py_repr := Printer.repr;
     stdout_encodes := fun c => negb ((55296 <=? c) && (c <=? 57343))%N |}.

(** A model that answers from a script: the world is the list of outcomes
    still to come, each call takes the next one, and a call after the end of
    the script fails.  Time does nothing to it.  CPython keeps the length of
    a sleep in nanoseconds in a signed 64-bit integer: [time.sleep] takes
    9223372036 seconds at most. *)
Definition Scripted : Oracle (list call) unit :=
  {| invoke := fun _ _ w =>
       match w with
       | outcome :: w' => (outcome, w')
       | [] => (Failed OtherException, [])
       end;
     elapse := fun _ w => w;
     sleep_max := 9223372036 |}.

(** Short stand-ins for the text of the prompts. *)
Definition SamplePrompts : Prompts :=
  {| stage_1_text := fun name => lit "Tell me about " ++ name;
     stage_2_head := lit "Based on the company profile below: ";
     stage_2_tail := lit " Generate realistic questions.";
     stage_3_head := lit "Company Profile: ";
     stage_3_mid := lit " Stakeholder Questions: ";
     stage_3_tail := lit " Answer ALL questions.";
     stage_4_head := lit "Input: ";
     stage_4_tail := lit " Your task: For EACH response, evaluate." |}.

(** A pipeline for the scripted model: every stage has its model. *)
Definition sample_pipeline : @pipeline unit :=
  {| company_name := lit "Open AI";
     stage_1_model := Some tt;
     stage_2_model := Some tt;
     stage_3_model := Some tt;
     stage_4_model := Some tt |}.

(** A response whose [content] is the ASCII text [s]. *)
Definition says (s : string) : call := Responded {| content := VStr (lit s) |}.

(** A response whose [content] is the empty text. *)
Definition says_nothing : call := Responded {| content := VStr [] |}.

(** ** What the properties are stated with *)

(** A strategy that hands back a dict or a list. *)
Definition structured (a : attempt) : bool :=
  match a with
  | Returned v => is_dict_or_list v
  | _ => false
  end.

(** A strategy that hands back nothing: it was skipped, or its decoding
    raised an error that it catches. *)
Definition falls_through (a : attempt) : bool :=
  match a with
  | Next => true
  | _ => false
  end.

(** A decoder whose only exception is [JSONDecodeError], as the
    documentation of [json.loads] has it. *)
Definition decode_errors_only `{PyRuntime} : Prop :=
  forall text e, json_loads text = Raise e -> e = JSONDecodeError.

(** The six strategies on [json_str], in order. *)
Definition strategies `{PyRuntime} (json_str : str) : list attempt :=
  let cleaned := strip_fences json_str in
  [strategy_1 json_str; strategy_2 json_str cleaned; strategy_3 cleaned;
   strategy_4 cleaned; strategy_5 cleaned; strategy_6 cleaned].

(** The values that [extract_text_content] takes from [text] and [content]
    keys are all strings. *)
Definition pieces_are_text (content : value) : bool :=
  match content with
  | VList items => forallb is_str (text_parts_of items)
  | VDict d =>
      match dict_get (lit "text") d with
      | Some t => is_str t
      | None =>
          match dict_get (lit "content") d with
          | Some c => is_str c
          | None => true
          end
      end
  | _ => true
  end.

Definition is_attempt (ev : event) : bool :=
  match ev with EAttempt _ _ _ => true | _ => false end.

Definition is_stage (n : nat) (ev : event) : bool :=
  match ev with EStage m => Nat.eqb n m | _ => false end.

(** The number of model calls in a log, and whether stage [n] was entered. *)
Definition attempts (evs : list event) : nat := length (List.filter is_attempt evs).

Definition stage_entered (n : nat) (evs : list event) : bool := existsb (is_stage n) evs.

(** The log of failed attempts, numbered from [attempt], each followed by
    its wait of [initial_wait * 2 ^ attempt]. *)
Fixpoint backoff_log (prompt : str) (initial_wait attempt : Z) (errors : list exn) : list event :=
  match errors with
  | [] => []
  | e :: errors' =>
      EAttempt attempt prompt (Failed e) :: ESleep (initial_wait * 2 ^ attempt)
      :: backoff_log prompt initial_wait (attempt + 1) errors'
  end.

(** The four stages, to speak of them together. *)
Inductive stage := Stage1 | Stage2 | Stage3 | Stage4.

Definition ordinal (k : stage) : nat :=
  match k with Stage1 => 1 | Stage2 => 2 | Stage3 => 3 | Stage4 => 4 end%nat.

Definition key_of (k : stage) : str :=
  match k with
  | Stage1 => lit "company_details"
  | Stage2 => lit "questions"
  | Stage3 => lit "answers"
  | Stage4 => lit "scores"
  end.

(** [initial_wait] in the stage's call of the wrapper. *)
Definition wait_of (k : stage) : Z :=
  match k with Stage3 => 3 | _ => 2 end.

(** The guard on the arguments of a stage: [if not ...: return None]. *)
Definition inputs_present (k : stage) (a b : value) : bool :=
  match k with
  | Stage1 => true
  | Stage2 => truthy a
  | Stage3 => truthy b && truthy a
  | Stage4 => truthy b
  end.

Section Observations.
Context `{PyRuntime} `{Prompts} {W Model : Type} `{Oracle W Model}.

Definition model_of (k : stage) (self : @pipeline Model) : option Model :=
  match k with
  | Stage1 => stage_1_model self
  | Stage2 => stage_2_model self
  | Stage3 => stage_3_model self
  | Stage4 => stage_4_model self
  end.

(** Stage 2 takes [company_details]; stage 3 takes [company_details] and
    [questions]; stage 4 takes [questions] and [answers]. *)
Definition run_stage (k : stage) (self : @pipeline Model) (a b : value) : M W value :=
  match k with
  | Stage1 => stage_1_company_details self
  | Stage2 => stage_2_generate_questions self a
  | Stage3 => stage_3_answer_questions self a b
  | Stage4 => stage_4_score_results self a b
  end.

Definition prompt_of (k : stage) (self : @pipeline Model) (a b : value) : str :=
  match k with
  | Stage1 => stage_1_prompt self
  | Stage2 => stage_2_prompt a
  | Stage3 => stage_3_prompt a b
  | Stage4 => stage_4_prompt a b
  end.

(** The state once the banner of stage [k] is printed. *)
Definition entered (k : stage) (st : state W) : state W :=
  {| world := world st; log := log st ++ [EStage (ordinal k)];
     stage_results := stage_results st |}.

(** Text Extractor, then Recovery Parser. *)
Definition extract_then_parse (r : response) : result value :=
  match extract_text_content (content r) with
  | Ok text => try_parse_json text
  | Raise e => Raise e
  end.

(** What a stage does with a response before it stores it: stage 1 only
    extracts the text. *)
Definition post_process (k : stage) (r : response) : result value :=
  match k with
  | Stage1 => extract_text_content (content r)
  | _ => extract_then_parse r
  end.

Definition report_of (k : stage) (v : value) : result unit :=
  match k with
  | Stage1 => report_1 v
  | Stage2 => report_2 v
  | Stage3 => report_3 v
  | Stage4 => report_4 v
  end.

(** A stage, from the return of the wrapper on: no response, or an
    exception anywhere, makes it return [None]; a response is processed,
    stored under the key of the stage, reported and returned. *)
Definition after_call (k : stage) (returned : result (option response) * state W)
  : result value * state W :=
  match returned with
  | (Ok (Some r), s1) =>
      match post_process k r with
      | Ok v =>
          let s2 := {| world := world s1; log := log s1;
                       stage_results := <[key_of k := v]> (stage_results s1) |} in
          match report_of k v with
          | Ok _ => (Ok v, s2)
          | Raise _ => (Ok VNone, s2)
          end
      | Raise _ => (Ok VNone, s1)
      end
  | (_, s1) => (Ok VNone, s1)
  end.

(** The results once [outcome], if it is a value, is stored under [key]. *)
Definition stored (key : str) (outcome : result value) (results : gmap str value)
  : gmap str value :=
  match outcome with
  | Ok v => <[key := v]> results
  | Raise _ => results
  end.

(** [reached self st k a b sk]: a run of [run_full_pipeline self] from
    [st] comes to stage [k] in state [sk], with arguments [a] and [b]: the
    opening line is printed, and every earlier stage has returned a value
    that is true. *)
Inductive reached (self : @pipeline Model) (st : state W)
  : stage -> value -> value -> state W -> Prop :=
| reached_1 :
    py_print (company_name self) = Ok tt ->
    reached self st Stage1 VNone VNone st
| reached_2 company_details s1 :
    py_print (company_name self) = Ok tt ->
    stage_1_company_details self st = (Ok company_details, s1) ->
    truthy company_details = true ->
    reached self st Stage2 company_details VNone s1
| reached_3 company_details unused questions s1 s2 :
    reached self st Stage2 company_details unused s1 ->
    stage_2_generate_questions self company_details s1 = (Ok questions, s2) ->
    truthy questions = true ->
    reached self st Stage3 company_details questions s2
| reached_4 company_details questions answers s2 s3 :
    reached self st Stage3 company_details questions s2 ->
    stage_3_answer_questions self company_details questions s2 = (Ok answers, s3) ->
    truthy answers = true ->
    reached self st Stage4 questions answers s3.

(** What is left of [run_full_pipeline] from each stage on. *)
Definition from_stage_4 (self : @pipeline Model) (questions answers : value) : M W bool :=
  scores <- stage_4_score_results self questions answers ;;
  if negb (truthy scores) then ret false else ret true.

Definition from_stage_3 (self : @pipeline Model) (company_details questions : value)
  : M W bool :=
  answers <- stage_3_answer_questions self company_details questions ;;
  if negb (truthy answers) then ret false else from_stage_4 self questions answers.

Definition from_stage_2 (self : @pipeline Model) (company_details : value) : M W bool :=
  questions <- stage_2_generate_questions self company_details ;;
  if negb (truthy questions) then ret false else from_stage_3 self company_details questions.

Definition from_stage_1 (self : @pipeline Model) : M W bool :=
  company_details <- stage_1_company_details self ;;
  if negb (truthy company_details) then ret false else from_stage_2 self company_details.

Definition resume (k : stage) (self : @pipeline Model) (a b : value) : M W bool :=
  match k with
  | Stage1 => from_stage_1 self
  | Stage2 => from_stage_2 self a
  | Stage3 => from_stage_3 self a b
  | Stage4 => from_stage_4 self a b
  end.

(** The run went on after stage [k]: the next stage was entered, or,
    after the last one, the run reported success. *)
Definition continued (k : stage) (run : result bool * state W) : Prop :=
  match k with
  | Stage1 => stage_entered 2 (log (snd run)) = true
  | Stage2 => stage_entered 3 (log (snd run)) = true
  | Stage3 => stage_entered 4 (log (snd run)) = true
  | Stage4 => fst run = Ok true
  end.

(** A log of model calls and waits only. *)
Definition calls_only (evs : list event) : bool :=
  forallb (fun ev => match ev with EStage _ => false | _ => true end) evs.

(** [plays model w evs w']: the calls of [model] and the waits in [evs] are
    what happened, in that order, between the world [w] and the world [w']:
    each call is there with the prompt it was made with and with what
    [invoke] gave for it in the world of the moment, and each wait let its
    time pass. *)
Inductive plays (model : Model) : W -> list event -> W -> Prop :=
| plays_nothing w : plays model w [] w
| plays_call w attempt prompt outcome w' evs w'' :
    invoke model prompt w = (outcome, w') ->
    plays model w' evs w'' ->
    plays model w (EAttempt attempt prompt outcome :: evs) w''
| plays_wait w wait_time evs w'' :
    plays model (elapse wait_time w) evs w'' ->
    plays model w (ESleep wait_time :: evs) w''.

(** [m] only adds to the log. *)
Definition grows {A : Type} (m : M W A) : Prop :=
  forall st, exists evs, log (snd (m st)) = log st ++ evs.

(** [m] prints the banner of stage [n], and from then on only adds to the
    log. *)
Definition announces {A : Type} (n : nat) (m : M W A) : Prop :=
  forall st, exists evs, log (snd (m st)) = log st ++ EStage n :: evs.

End Observations.

(** * More of the code: what the further properties are stated with *)

(** [t] is a run of consecutive characters of [s]. *)
Definition part_of (t s : str) : Prop := exists before after, s = before ++ t ++ after.

(** The character [c] does not occur in [s]. *)
Definition absent (c : N) (s : str) : bool := forallb (fun a => negb (a =? c)%N) s.

(** The time a log spends in [time.sleep]. *)
Fixpoint slept (evs : list event) : Z :=
  match evs with
  | [] => 0
  | ESleep wait_time :: evs' => wait_time + slept evs'
  | _ :: evs' => slept evs'
  end.

(** The stages whose banner is in a log, in order. *)
Fixpoint banners (evs : list event) : list nat :=
  match evs with
  | [] => []
  | EStage n :: evs' => n :: banners evs'
  | _ :: evs' => banners evs'
  end.

(** The keys that the stages before [k] write. *)
Definition keys_before (k : stage) : gset str :=
  match k with
  | Stage1 => ∅
  | Stage2 => {[ lit "company_details" ]}
  | Stage3 => {[ lit "company_details"; lit "questions" ]}
  | Stage4 => {[ lit "company_details"; lit "questions"; lit "answers" ]}
  end.

(** [m], what is left of a run from stage [k] on, returns; the stages it
    enters are [k] and those that follow, in order, up to stage 4 at most
    and all of them when it reports success; they make at most three calls
    each and sleep for [budget] at most in all. *)
Definition run_within {W : Type} (k : nat) (budget : Z) (m : M W bool) : Prop :=
  forall st r st',
    m st = (r, st') ->
    exists b evs n,
      r = Ok b
      /\ log st' = log st ++ evs
      /\ banners evs = seq k n
      /\ (1 <= n)%nat /\ (k + n <= 5)%nat
      /\ (b = true -> (k + n = 5)%nat)
      /\ (attempts evs <= 3 * n)%nat
      /\ slept evs <= budget.

(** * Properties *)

Section Properties.
Context `{PyRuntime} `{Prompts} {W Model : Type} `{Oracle W Model}.

(** ** Text extractor *)

(** C8: on a plain string the text extractor is the identity. *)
Theorem extract_text_content_str (s : str) :
  extract_text_content (VStr s) = Ok (VStr s).
Proof. reflexivity. Qed.


Lemma all_strs_are_strs (parts : list value) (ss : list str) :
  all_strs parts = Some ss -> forallb is_str parts = true.
Proof.
  revert ss; induction parts as [|p parts IH]; simpl; intros ss Hall; [reflexivity|].
  destruct p; try discriminate.
  destruct (all_strs parts) as [ss'|] eqn:E; [|discriminate].
  simpl. now apply (IH ss').
Qed.


(** The condition of [extract_text_content_returns_str] is also necessary. *)
Lemma extract_text_content_str_only (content : value) (text : str) :
  extract_text_content content = Ok (VStr text) -> pieces_are_text content = true.
Proof.
  destruct content as [| b | n | f | s | items | d]; simpl; try reflexivity.
  - destruct (text_parts_of items) as [|p parts]; [reflexivity|].
    unfold py_join. destruct (all_strs (p :: parts)) as [ss|] eqn:E; [|discriminate].
    intros _. now apply (all_strs_are_strs _ ss).
  - destruct (dict_get (lit "text") d) as [t|].
    + now intros [= ->].
    + destruct (dict_get (lit "content") d) as [c|]; [|reflexivity].
      now intros [= ->].
Qed.

(** ** Recovery parser *)

Lemma falls_through_Next (a : attempt) : falls_through a = true -> a = Next.
Proof. now destruct a. Qed.

(** What a strategy that decodes hands back is what [json.loads] gave. *)
Lemma try_loads_Returned (caught : exn -> bool) (text : str) (v : value) :
  try_loads caught text = Returned v -> json_loads text = Ok v.
Proof.
  unfold try_loads. destruct (json_loads text) as [v'|e]; [now intros [= ->]|].
  destruct (caught e); discriminate.
Qed.

(** Each of the first five strategies hands back only what [json.loads]
    has made of some text. *)
Lemma strategy_decodes (json_str : str) (n : nat) (v : value) :
  (n < 5)%nat ->
  strategies json_str !! n = Some (Returned v) ->
  exists text, json_loads text = Ok v.
Proof.
  intros Hn. unfold strategies. cbv zeta.
  destruct n as [|[|[|[|[|n]]]]]; [| | | | |lia]; cbn [lookup list_lookup]; intros [= Hnth].
  - eexists. exact (try_loads_Returned _ _ _ Hnth).
  - unfold strategy_2 in Hnth. destruct (decide _); [|discriminate].
    eexists. exact (try_loads_Returned _ _ _ Hnth).
  - unfold strategy_3, strategy_between in Hnth. destruct (_ && _); [|discriminate].
    eexists. exact (try_loads_Returned _ _ _ Hnth).
  - unfold strategy_4, strategy_between in Hnth. destruct (_ && _); [|discriminate].
    eexists. exact (try_loads_Returned _ _ _ Hnth).
  - eexists. exact (try_loads_Returned _ _ _ Hnth).
Qed.

(** C1 (amended): when each of the six strategies hands back nothing (it
    is skipped, or its decoding raises an error that it catches; the scan
    finds no dict or list), the parser returns the input string.  When one
    of the first five strategies hands back a value, those before it having
    handed back nothing, the parser returns that value, which is what
    [json.loads] has decoded; and when the decoding of one of the first five
    strategies succeeds, those before it having handed back nothing, the
    parser returns what was decoded, whatever it is: be it [None], a number,
    a boolean or a string. *)
Theorem try_parse_json_passthrough (json_str : str) :
  (forallb falls_through (strategies json_str) = true ->
   try_parse_json (VStr json_str) = Ok (VStr json_str))
  /\ (forall n v,
        (n < 5)%nat ->
        forallb falls_through (take n (strategies json_str)) = true ->
        strategies json_str !! n = Some (Returned v) ->
        try_parse_json (VStr json_str) = Ok v
        /\ exists text, json_loads text = Ok v)
  /\ (forall n caught text v,
        (n < 5)%nat ->
        forallb falls_through (take n (strategies json_str)) = true ->
        strategies json_str !! n = Some (try_loads caught text) ->
        json_loads text = Ok v ->
        try_parse_json (VStr json_str) = Ok v).
Proof.
  assert (Hhands : forall n v,
             (n < 5)%nat ->
             forallb falls_through (take n (strategies json_str)) = true ->
             strategies json_str !! n = Some (Returned v) ->
             try_parse_json (VStr json_str) = Ok v).
  { intros n v Hn. unfold try_parse_json, strategies. cbv zeta.
    destruct n as [|[|[|[|[|n]]]]]; [| | | | |lia];
      cbn [take forallb lookup list_lookup]; rewrite ?andb_true_iff;
      intros Hbefore [= Hnth]; rewrite Hnth.
    - reflexivity.
    - destruct Hbefore as (S1 & _). apply falls_through_Next in S1. now rewrite S1.
    - destruct Hbefore as (S1 & S2 & _). apply falls_through_Next in S1, S2.
      now rewrite S1, S2.
    - destruct Hbefore as (S1 & S2 & S3 & _). apply falls_through_Next in S1, S2, S3.
      now rewrite S1, S2, S3.
    - destruct Hbefore as (S1 & S2 & S3 & S4 & _).
      apply falls_through_Next in S1, S2, S3, S4. now rewrite S1, S2, S3, S4. }
  split; [|split].
  - unfold strategies. cbn [forallb]. rewrite !andb_true_iff.
    intros (S1 & S2 & S3 & S4 & S5 & S6 & _).
    apply falls_through_Next in S1, S2, S3, S4, S5, S6.
    unfold try_parse_json. cbv zeta.
    now rewrite S1, S2, S3, S4, S5, S6.
  - intros n v Hn Hbefore Hnth.
    split; [exact (Hhands n v Hn Hbefore Hnth) | exact (strategy_decodes json_str n v Hn Hnth)].
  - intros n caught text v Hn Hbefore Hnth Hloads.
    apply (Hhands n v Hn Hbefore). rewrite Hnth. unfold try_loads. now rewrite Hloads.
Qed.

(** C9: a value that is not a string goes through the parser unchanged,
    so parsing the structured output of the parser again gives it back. *)
Theorem try_parse_json_structured (v : value) :
  is_str v = false ->
  try_parse_json v = Ok v /\
  forall input,
    try_parse_json input = Ok v ->
    match try_parse_json input with
    | Ok once => try_parse_json once
    | Raise e => Raise e
    end = Ok v.
Proof.
  intros Hv.
  assert (Hid : try_parse_json v = Ok v) by (destruct v; try reflexivity; discriminate).
  split; [exact Hid|].
  intros input ->. exact Hid.
Qed.

(** The parser is the first strategy that hands something back, and the
    input when none does. *)
Lemma try_parse_json_cascade (json_str : str) :
  try_parse_json (VStr json_str)
  = fold_right or_else (Ok (VStr json_str)) (strategies json_str).
Proof. reflexivity. Qed.

Lemma try_loads_caught (caught : exn -> bool) (text : str) :
  decode_errors_only ->
  caught JSONDecodeError = true ->
  forall e, try_loads caught text <> Propagated e.
Proof.
  intros Honly Hcaught e. unfold try_loads.
  destruct (json_loads text) as [v|e'] eqn:Eloads; [discriminate|].
  rewrite (Honly text e' Eloads), Hcaught. discriminate.
Qed.

(** With a decoder that raises decode errors only, no strategy lets an
    exception out, and the parser returns on every input. *)
Lemma strategies_never_propagate (json_str : str) :
  decode_errors_only ->
  Forall (fun a => forall e, a <> Propagated e) (strategies json_str).
Proof.
  intros Honly. unfold strategies.
  repeat first [apply List.Forall_nil | apply List.Forall_cons].
  - now apply try_loads_caught.
  - unfold strategy_2. destruct (decide _); [now apply try_loads_caught|discriminate].
  - unfold strategy_3, strategy_between.
    destruct (_ && _); [now apply try_loads_caught|discriminate].
  - unfold strategy_4, strategy_between.
    destruct (_ && _); [now apply try_loads_caught|discriminate].
  - now apply try_loads_caught.
  - unfold strategy_6. destruct (scan_starts _ _); discriminate.
Qed.

Lemma try_parse_json_never_raises (json_str : value) :
  decode_errors_only ->
  exists v, try_parse_json json_str = Ok v.
Proof.
  intros Honly. destruct json_str as [| b | n | f | s | items | d];
    try (eexists; reflexivity).
  rewrite try_parse_json_cascade.
  pose proof (strategies_never_propagate s Honly) as Hnever.
  induction Hnever as [|a rest Ha _ IH]; cbn [fold_right]; [now eexists|].
  destruct a as [v | e |]; cbn [or_else]; [now eexists | now destruct (Ha e) | exact IH].
Qed.

(** ** Invocation wrapper *)

(** C10: with [max_retries] zero or negative the wrapper calls nothing,
    waits for nothing and returns [None]. *)
Theorem invoke_model_with_retry_no_budget (model : Model) (prompt : str)
        (max_retries initial_wait : Z) (st : state W) :
  max_retries <= 0 ->
  invoke_model_with_retry model prompt max_retries initial_wait st = (Ok None, st).
Proof.
  intros Hmax. unfold invoke_model_with_retry.
  replace (Z.to_nat max_retries) with 0%nat by lia. reflexivity.
Qed.

Lemma attempts_app (l1 l2 : list event) :
  attempts (l1 ++ l2) = (attempts l1 + attempts l2)%nat.
Proof. unfold attempts. now rewrite List.filter_app, length_app. Qed.

Lemma attempts_backoff_log (prompt : str) (initial_wait : Z) (errors : list exn) :
  forall attempt, attempts (backoff_log prompt initial_wait attempt errors) = length errors.
Proof.
  induction errors as [|e errors IH]; intros attempt; [reflexivity|].
  cbn [backoff_log]. change (attempts (?a :: ?b :: ?l)) with (S (attempts l)).
  now rewrite IH.
Qed.

Lemma calls_only_backoff_log (prompt : str) (initial_wait : Z) (errors : list exn) :
  forall attempt, calls_only (backoff_log prompt initial_wait attempt errors) = true.
Proof. induction errors as [|e errors IH]; intros attempt; [reflexivity|]. simpl. apply IH. Qed.

(** The loop, from any attempt on: the stage results are left alone, and
    when a call is made the log is the failed attempts with their waits,
    then the attempt that ends the loop; the calls are those of the model,
    one after the other, each in the world that the one before has left.
    What ends the loop: an answer; a failure whose message cannot be
    printed; a failure followed by a wait that [time.sleep] refuses; the
    failure of the last attempt. *)
Lemma retry_loop_spec (model : Model) (prompt : str) (max_retries initial_wait : Z) :
  forall (remaining : nat) (attempt : Z) (st st' : state W) (r : result (option response)),
    0 <= attempt ->
    Z.of_nat remaining = max_retries - attempt ->
    retry_loop model prompt max_retries initial_wait remaining attempt st = (r, st') ->
    stage_results st' = stage_results st
    /\ ((remaining = 0%nat /\ r = Ok None /\ st' = st)
        \/ exists errors outcome,
             log st' = log st ++ backoff_log prompt initial_wait attempt errors
                       ++ [EAttempt (attempt + Z.of_nat (length errors)) prompt outcome]
             /\ plays model (world st)
                  (backoff_log prompt initial_wait attempt errors
                   ++ [EAttempt (attempt + Z.of_nat (length errors)) prompt outcome])
                  (world st')
             /\ (length errors < remaining)%nat
             /\ match outcome with
                | Responded resp => r = Ok (Some resp)
                | Unprintable _ => r = Raise UnicodeEncodeError
                | Failed _ =>
                    if attempt + Z.of_nat (length errors) <? max_retries - 1 then
                      (initial_wait * 2 ^ (attempt + Z.of_nat (length errors)) < 0
                       /\ r = Raise ValueError)
                      \/ (sleep_max < initial_wait * 2 ^ (attempt + Z.of_nat (length errors))
                          /\ r = Raise OverflowError)
                    else r = Ok None
                end).
Proof.
  induction remaining as [|remaining IH]; intros attempt st st' r Hattempt Hleft.
  - intros [= <- <-]. split; [reflexivity|]. left. auto.
  - cbn [retry_loop]. unfold bind at 1. unfold model_invoke.
    destruct (invoke model prompt (world st)) as [outcome w] eqn:Ecall.
    destruct outcome as [resp | e | e].
    + intros [= <- <-]. split; [reflexivity|]. right. exists [], (Responded resp).
      cbn [backoff_log app length log world]. rewrite Z.add_0_r.
      split; [reflexivity|]. split; [|split; [lia | reflexivity]].
      eapply plays_call; [exact Ecall | apply plays_nothing].
    + destruct (attempt <? max_retries - 1) eqn:Emore.
      * unfold bind at 1. unfold time_sleep.
        destruct (initial_wait * 2 ^ attempt <? 0) eqn:Enegative;
          [|destruct (sleep_max <? initial_wait * 2 ^ attempt) eqn:Elong].
        -- intros [= <- <-]. split; [reflexivity|]. right. exists [], (Failed e).
           cbn [backoff_log app length log world]. rewrite Z.add_0_r, Emore.
           split; [reflexivity|].
           split; [eapply plays_call; [exact Ecall | apply plays_nothing]|].
           split; [lia|]. left. split; [now apply Z.ltb_lt | reflexivity].
        -- intros [= <- <-]. split; [reflexivity|]. right. exists [], (Failed e).
           cbn [backoff_log app length log world]. rewrite Z.add_0_r, Emore.
           split; [reflexivity|].
           split; [eapply plays_call; [exact Ecall | apply plays_nothing]|].
           split; [lia|]. right. split; [now apply Z.ltb_lt | reflexivity].
        -- apply Z.ltb_lt in Emore. intros Hrun.
           apply IH in Hrun as [Hres Hshape]; [|lia|lia].
           split; [exact Hres|]. right.
           destruct Hshape as [(Hzero & _) | (errors & outcome & Hlog & Hplays & Hlen & Hend)];
             [lia|].
           exists (e :: errors), outcome.
           cbn [log world] in Hlog, Hplays. cbn [backoff_log length].
           replace (attempt + Z.of_nat (S (length errors)))
             with (attempt + 1 + Z.of_nat (length errors)) by lia.
           split; [rewrite Hlog, <- !app_assoc; reflexivity|].
           split; [|split; [lia | exact Hend]].
           cbn [app]. eapply plays_call; [exact Ecall|]. apply plays_wait. exact Hplays.
      * apply Z.ltb_ge in Emore.
        intros [= <- <-]. split; [reflexivity|]. right. exists [], (Failed e).
        cbn [backoff_log app length log world]. rewrite Z.add_0_r.
        split; [reflexivity|].
        split; [eapply plays_call; [exact Ecall | apply plays_nothing]|].
        split; [lia|].
        replace (attempt <? max_retries - 1) with false
          by (symmetry; apply Z.ltb_ge; lia).
        reflexivity.
    + intros [= <- <-]. split; [reflexivity|]. right. exists [], (Unprintable e).
      cbn [backoff_log app length log world]. rewrite Z.add_0_r.
      split; [reflexivity|]. split; [|split; [lia | reflexivity]].
      eapply plays_call; [exact Ecall | apply plays_nothing].
Qed.

(** C2 (amended): for waits that [time.sleep] takes (they are not negative
    and not too long), the wrapper makes at most [max_retries] calls of the
    model, one after the other, each in the world that the one before has
    left; a call that answers ends it with that answer; after a failed call
    with calls left it waits [initial_wait * 2 ^ attempt]; when the last
    call fails it returns [None].  It raises in one case: a call fails with
    a message that the handler cannot print, and the [UnicodeEncodeError] of
    [print] leaves the wrapper after that call. *)
Theorem invoke_model_with_retry_backoff (model : Model) (prompt : str)
        (max_retries initial_wait : Z) (st : state W) :
  0 <= initial_wait ->
  (forall attempt, 0 <= attempt < max_retries - 1 -> initial_wait * 2 ^ attempt <= sleep_max) ->
  exists r st' evs errors,
    invoke_model_with_retry model prompt max_retries initial_wait st = (r, st')
    /\ log st' = log st ++ evs
    /\ plays model (world st) evs (world st')
    /\ stage_results st' = stage_results st
    /\ Z.of_nat (attempts evs) <= Z.max 0 max_retries
    /\ match r with
       | Ok (Some resp) =>
           evs = backoff_log prompt initial_wait 0 errors
                 ++ [EAttempt (Z.of_nat (length errors)) prompt (Responded resp)]
       | Ok None =>
           (max_retries <= 0 /\ evs = []) \/
           (exists e, Z.of_nat (length errors) = max_retries - 1 /\
              evs = backoff_log prompt initial_wait 0 errors
                    ++ [EAttempt (max_retries - 1) prompt (Failed e)])
       | Raise raised =>
           raised = UnicodeEncodeError /\
           exists e,
             evs = backoff_log prompt initial_wait 0 errors
                   ++ [EAttempt (Z.of_nat (length errors)) prompt (Unprintable e)]
       end.
Proof.
  intros Hwait Hshort.
  destruct (invoke_model_with_retry model prompt max_retries initial_wait st)
    as [r st'] eqn:Hrun.
  exists r, st'. unfold invoke_model_with_retry in Hrun.
  destruct (Z_le_gt_dec max_retries 0) as [Hnone | Hsome].
  { replace (Z.to_nat max_retries) with 0%nat in Hrun by lia.
    injection Hrun as <- <-. exists [], []. rewrite app_nil_r.
    split; [reflexivity|]. split; [reflexivity|]. split; [apply plays_nothing|].
    split; [reflexivity|]. split; [cbn; lia|]. left. split; [lia | reflexivity]. }
  apply retry_loop_spec in Hrun as [Hres Hshape]; [|lia|lia].
  destruct Hshape as [(Hzero & _) | (errors & outcome & Hlog & Hplays & Hlen & Hend)]; [lia|].
  - rewrite Z.add_0_l in Hlog, Hplays, Hend.
    eexists. exists errors.
    split; [reflexivity|]. split; [exact Hlog|]. split; [exact Hplays|].
    split; [exact Hres|].
    split; [rewrite attempts_app, attempts_backoff_log; cbn; lia|].
    destruct outcome as [resp | e | e].
    + subst r. reflexivity.
    + destruct (Z.of_nat (length errors) <? max_retries - 1) eqn:Emore.
      * apply Z.ltb_lt in Emore.
        assert (Hpow : 0 <= 2 ^ Z.of_nat (length errors)) by (apply Z.pow_nonneg; lia).
        specialize (Hshort (Z.of_nat (length errors)) ltac:(lia)).
        destruct Hend as [[Hnegative _] | [Hlong _]]; [nia | lia].
      * apply Z.ltb_ge in Emore. subst r. right. exists e.
        split; [lia|]. replace (max_retries - 1) with (Z.of_nat (length errors)) by lia.
        reflexivity.
    + subst r. split; [reflexivity|]. now exists e.
Qed.

(** ** Stages *)

(** Whatever happens, the wrapper logs calls and waits only and leaves the
    stage results alone. *)
Lemma retry_loop_quiet (model : Model) (prompt : str) (max_retries initial_wait : Z)
      (remaining : nat) :
  forall (attempt : Z) (st : state W) r st',
    retry_loop model prompt max_retries initial_wait remaining attempt st = (r, st') ->
    exists evs,
      log st' = log st ++ evs
      /\ calls_only evs = true
      /\ stage_results st' = stage_results st.
Proof.
  induction remaining as [|remaining IH]; intros attempt st r st'.
  - intros [= <- <-]. exists []. now rewrite app_nil_r.
  - cbn [retry_loop]. unfold bind at 1. unfold model_invoke.
    destruct (invoke model prompt (world st)) as [outcome w].
    destruct outcome as [resp | e | e].
    + intros [= <- <-]. eexists. cbn. split; [reflexivity|]. split; reflexivity.
    + destruct (attempt <? max_retries - 1).
      * unfold bind at 1. unfold time_sleep.
        destruct (initial_wait * 2 ^ attempt <? 0);
          [|destruct (sleep_max <? initial_wait * 2 ^ attempt)].
        -- intros [= <- <-]. eexists. cbn. split; [reflexivity|]. split; reflexivity.
        -- intros [= <- <-]. eexists. cbn. split; [reflexivity|]. split; reflexivity.
        -- intros Hrun. apply IH in Hrun as (evs & Hlog & Hcalls & Hres).
           eexists. rewrite Hlog, Hres. cbn [log stage_results].
           rewrite <- !app_assoc. split; [reflexivity|]. split; [|reflexivity].
           cbn. exact Hcalls.
      * intros [= <- <-]. eexists. cbn. split; [reflexivity|]. split; reflexivity.
    + intros [= <- <-]. eexists. cbn. split; [reflexivity|]. split; reflexivity.
Qed.

Lemma invoke_model_with_retry_quiet (model : Model) (prompt : str)
      (max_retries initial_wait : Z) (st : state W) r st' :
  invoke_model_with_retry model prompt max_retries initial_wait st = (r, st') ->
  exists evs,
    log st' = log st ++ evs
    /\ calls_only evs = true
    /\ stage_results st' = stage_results st.
Proof. apply retry_loop_quiet. Qed.

(** The template of a stage that has its model and its arguments. *)
Lemma run_stage_template (k : stage) (self : @pipeline Model) (a b : value)
      (st : state W) (m : Model) :
  model_of k self = Some m ->
  inputs_present k a b = true ->
  run_stage k self a b st
  = after_call k (invoke_model_with_retry m (prompt_of k self a b) 3 (wait_of k) (entered k st)).
Proof.
  intros Hmodel Hinputs. destruct k; cbn in Hmodel, Hinputs |- *.
  - unfold stage_1_company_details, bind at 1, log_event. rewrite Hmodel.
    unfold try_except, bind at 1, entered, after_call. cbn [ordinal world log stage_results].
    destruct (invoke_model_with_retry _ _ _ _ _) as [[[r|]|e] s1]; try reflexivity.
    unfold bind, lift, set_result, ret, post_process, report_of, key_of.
    destruct (extract_text_content (content r)) as [details|e]; [|reflexivity].
    destruct (report_1 details); reflexivity.
  - unfold stage_2_generate_questions, bind at 1, log_event. rewrite Hmodel, Hinputs.
    unfold try_except, bind at 1, entered, after_call. cbn [negb ordinal world log stage_results].
    destruct (invoke_model_with_retry _ _ _ _ _) as [[[r|]|e] s1]; try reflexivity.
    unfold bind, lift, set_result, ret, post_process, extract_then_parse, report_of, key_of.
    destruct (extract_text_content (content r)) as [text|e]; [|reflexivity].
    destruct (try_parse_json text) as [parsed|e]; [|reflexivity].
    destruct (report_2 parsed); reflexivity.
  - apply andb_true_iff in Hinputs as [Hb Ha].
    unfold stage_3_answer_questions, bind at 1, log_event. rewrite Hmodel, Ha, Hb.
    unfold try_except, bind at 1, entered, after_call.
    cbn [negb orb ordinal world log stage_results].
    destruct (invoke_model_with_retry _ _ _ _ _) as [[[r|]|e] s1]; try reflexivity.
    unfold bind, lift, set_result, ret, post_process, extract_then_parse, report_of, key_of.
    destruct (extract_text_content (content r)) as [text|e]; [|reflexivity].
    destruct (try_parse_json text) as [parsed|e]; [|reflexivity].
    destruct (report_3 parsed); reflexivity.
  - unfold stage_4_score_results, bind at 1, log_event. rewrite Hmodel, Hinputs.
    unfold try_except, bind at 1, entered, after_call. cbn [negb ordinal world log stage_results].
    destruct (invoke_model_with_retry _ _ _ _ _) as [[[r|]|e] s1]; try reflexivity.
    unfold bind, lift, set_result, ret, post_process, extract_then_parse, report_of, key_of.
    destruct (extract_text_content (content r)) as [text|e]; [|reflexivity].
    destruct (try_parse_json text) as [parsed|e]; [|reflexivity].
    destruct (report_4 parsed); reflexivity.
Qed.

(** A stage without its model or without its arguments prints its banner
    and returns [None]. *)
Lemma run_stage_skipped (k : stage) (self : @pipeline Model) (a b : value) (st : state W) :
  model_of k self = None \/ inputs_present k a b = false ->
  run_stage k self a b st = (Ok VNone, entered k st).
Proof.
  intros Hskip. destruct k; cbn in Hskip |- *.
  - destruct Hskip as [Hmodel | ?]; [|discriminate].
    unfold stage_1_company_details, bind at 1, log_event. now rewrite Hmodel.
  - unfold stage_2_generate_questions, bind at 1, log_event.
    destruct (stage_2_model self); [|reflexivity].
    destruct Hskip as [? | Hinputs]; [discriminate|]. now rewrite Hinputs.
  - unfold stage_3_answer_questions, bind at 1, log_event.
    destruct (stage_3_model self); [|reflexivity].
    destruct Hskip as [? | Hinputs]; [discriminate|].
    apply andb_false_iff in Hinputs.
    destruct (truthy b), (truthy a); try reflexivity. now destruct Hinputs.
  - unfold stage_4_score_results, bind at 1, log_event.
    destruct (stage_4_model self); [|reflexivity].
    destruct Hskip as [? | Hinputs]; [discriminate|]. now rewrite Hinputs.
Qed.

(** C4 (amended): a stage whose call succeeds stores, under its key, the
    response after the Text Extractor and, in stages 2 to 4, the Recovery
    Parser; stage 1 stores the extracted text as it is.  When one of the
    two raises, nothing is stored. *)
Theorem stage_stores_processed_response (k : stage) (self : @pipeline Model) (a b : value)
        (st s1 : state W) (m : Model) (r : response) :
  model_of k self = Some m ->
  inputs_present k a b = true ->
  invoke_model_with_retry m (prompt_of k self a b) 3 (wait_of k) (entered k st)
  = (Ok (Some r), s1) ->
  stage_results (snd (run_stage k self a b st))
  = stored (key_of k) (post_process k r) (stage_results s1).
Proof.
  intros Hmodel Hinputs Hcall.
  rewrite (run_stage_template k self a b st m Hmodel Hinputs), Hcall.
  unfold after_call, stored.
  destruct (post_process k r) as [v|e]; [|reflexivity].
  destruct (report_of k v); reflexivity.
Qed.

(** C7: the prompt of stage 4 is built from the answers alone; the
    questions handed to the stage change neither the prompt nor anything
    else the stage does. *)
Theorem stage_4_ignores_questions (self : @pipeline Model) (questions questions' answers : value) :
  stage_4_prompt questions answers = stage_4_head ++ format_for_prompt answers ++ stage_4_tail
  /\ stage_4_prompt questions answers = stage_4_prompt questions' answers
  /\ forall st : state W,
       stage_4_score_results self questions answers st
       = stage_4_score_results self questions' answers st.
Proof. repeat split. Qed.

(** ** Orchestrator *)

Lemma stage_entered_app (n : nat) (l1 l2 : list event) :
  stage_entered n (l1 ++ l2) = stage_entered n l1 || stage_entered n l2.
Proof. apply existsb_app. Qed.

Lemma calls_only_not_entered (n : nat) (evs : list event) :
  calls_only evs = true -> stage_entered n evs = false.
Proof.
  induction evs as [|ev evs IH]; [reflexivity|]. cbn.
  intros Hcalls. apply andb_true_iff in Hcalls as [Hev Hrest].
  destruct ev; try discriminate; cbn; now apply IH.
Qed.

(** A stage never raises; it logs its banner, then calls and waits only. *)
Lemma run_stage_log (k : stage) (self : @pipeline Model) (a b : value)
      (st st' : state W) (r : result value) :
  run_stage k self a b st = (r, st') ->
  (exists v, r = Ok v)
  /\ exists evs, log st' = log st ++ EStage (ordinal k) :: evs /\ calls_only evs = true.
Proof.
  destruct (model_of k self) as [m|] eqn:Hmodel.
  2: { rewrite run_stage_skipped by now left.
       intros [= <- <-]. split; [now eexists|]. now exists []. }
  destruct (inputs_present k a b) eqn:Hinputs.
  2: { rewrite run_stage_skipped by now right.
       intros [= <- <-]. split; [now eexists|]. now exists []. }
  rewrite (run_stage_template k self a b st m Hmodel Hinputs).
  destruct (invoke_model_with_retry _ _ _ _ _) as [called s1] eqn:Hcall.
  apply invoke_model_with_retry_quiet in Hcall as (evs & Hlog & Hcalls & _).
  cbn [entered log] in Hlog. rewrite <- app_assoc in Hlog. cbn [app] in Hlog.
  unfold after_call.
  destruct called as [[resp|]|e];
    [destruct (post_process k resp) as [v|e]; [destruct (report_of k v)|] | |];
    intros [= <- <-]; (split; [now eexists|]); exists evs; now split.
Qed.

(** A stage that returns a value that is true has stored it under its
    key, and nothing else. *)
Lemma run_stage_truthy (k : stage) (self : @pipeline Model) (a b : value)
      (st st' : state W) (v : value) :
  run_stage k self a b st = (Ok v, st') ->
  truthy v = true ->
  stage_results st' = <[key_of k := v]> (stage_results st).
Proof.
  destruct (model_of k self) as [m|] eqn:Hmodel.
  2: { rewrite run_stage_skipped by now left. now intros [= <- <-]. }
  destruct (inputs_present k a b) eqn:Hinputs.
  2: { rewrite run_stage_skipped by now right. now intros [= <- <-]. }
  rewrite (run_stage_template k self a b st m Hmodel Hinputs).
  destruct (invoke_model_with_retry _ _ _ _ _) as [called s1] eqn:Hcall.
  apply invoke_model_with_retry_quiet in Hcall as (evs & _ & _ & Hres).
  cbn [entered stage_results] in Hres.
  unfold after_call.
  destruct called as [[resp|]|e];
    [destruct (post_process k resp) as [v'|e]; [destruct (report_of k v')|] | |];
    intros [= <- <-]; try discriminate.
  intros _. cbn. now rewrite Hres.
Qed.

(** A run whose opening line is printed is the four stages; one whose
    opening line cannot be printed ends there, with nothing done. *)
Lemma run_full_pipeline_opens (self : @pipeline Model) (st : state W) :
  py_print (company_name self) = Ok tt ->
  run_full_pipeline self st = from_stage_1 self st.
Proof. intros Hprint. unfold run_full_pipeline, bind at 1, lift. now rewrite Hprint. Qed.

Lemma run_full_pipeline_refused (self : @pipeline Model) (st : state W) (e : exn) :
  py_print (company_name self) = Raise e ->
  run_full_pipeline self st = (Raise e, st).
Proof. intros Hprint. unfold run_full_pipeline, bind at 1, lift. now rewrite Hprint. Qed.

(** A run that has reached stage [k] is what is left from stage [k] on. *)
Lemma run_full_pipeline_resume (self : @pipeline Model) (st sk : state W)
      (k : stage) (a b : value) :
  reached self st k a b sk ->
  run_full_pipeline self st = resume k self a b sk.
Proof.
  induction 1 as [Hprint | cd s1 Hprint Hrun Htrue | cd unused q s1 s2 _ IH Hrun Htrue
                  | cd q ans s2 s3 _ IH Hrun Htrue]; cbn [resume] in *.
  - now apply run_full_pipeline_opens.
  - rewrite (run_full_pipeline_opens self st Hprint).
    unfold from_stage_1, bind at 1. now rewrite Hrun, Htrue.
  - rewrite IH. unfold from_stage_2, bind at 1. now rewrite Hrun, Htrue.
  - rewrite IH. unfold from_stage_3, bind at 1. now rewrite Hrun, Htrue.
Qed.

(** The arguments of a stage that is reached are there. *)
Lemma reached_inputs_present (self : @pipeline Model) (st sk : state W)
      (k : stage) (a b : value) :
  reached self st k a b sk -> inputs_present k a b = true.
Proof.
  destruct 1 as [Hprint | cd s1 Hprint Hrun Htrue | cd unused q s1 s2 Hbefore Hrun Htrue
                 | cd q ans s2 s3 Hbefore Hrun Htrue]; cbn; auto.
  inversion Hbefore; subst. now rewrite Htrue.
Qed.

Lemma from_stage_4_announces (self : @pipeline Model) (questions answers : value) :
  announces 4 (from_stage_4 self questions answers).
Proof.
  intros st. unfold from_stage_4, bind.
  destruct (stage_4_score_results self questions answers st) as [r st'] eqn:Hrun.
  apply (run_stage_log Stage4) in Hrun as ([v ->] & evs & Hlog & _).
  exists evs. now destruct (truthy v).
Qed.

Lemma from_stage_3_announces (self : @pipeline Model) (company_details questions : value) :
  announces 3 (from_stage_3 self company_details questions).
Proof.
  intros st. unfold from_stage_3, bind.
  destruct (stage_3_answer_questions self company_details questions st) as [r st'] eqn:Hrun.
  apply (run_stage_log Stage3) in Hrun as ([v ->] & evs & Hlog & _).
  destruct (truthy v); cbn [negb]; [|now exists evs].
  destruct (from_stage_4_announces self questions v st') as [evs' ->].
  rewrite Hlog, <- app_assoc. now eexists.
Qed.

Lemma from_stage_2_announces (self : @pipeline Model) (company_details : value) :
  announces 2 (from_stage_2 self company_details).
Proof.
  intros st. unfold from_stage_2, bind.
  destruct (stage_2_generate_questions self company_details st) as [r st'] eqn:Hrun.
  apply (run_stage_log Stage2 self company_details VNone) in Hrun as ([v ->] & evs & Hlog & _).
  destruct (truthy v); cbn [negb]; [|now exists evs].
  destruct (from_stage_3_announces self company_details v st') as [evs' ->].
  rewrite Hlog, <- app_assoc. now eexists.
Qed.

Lemma announces_entered {A : Type} (n : nat) (m : M W A) (st : state W) :
  announces n m -> stage_entered n (log (snd (m st))) = true.
Proof.
  intros Hm. destruct (Hm st) as [evs ->].
  rewrite stage_entered_app. cbn. rewrite Nat.eqb_refl. cbn. apply orb_true_r.
Qed.

(** A stage whose call succeeds and whose processed response is a text
    that is not empty returns that text, stored under its key. *)
Lemma run_stage_text (k : stage) (self : @pipeline Model) (a b : value)
      (st s1 : state W) (m : Model) (r : response) (text : str) :
  model_of k self = Some m ->
  inputs_present k a b = true ->
  invoke_model_with_retry m (prompt_of k self a b) 3 (wait_of k) (entered k st)
  = (Ok (Some r), s1) ->
  post_process k r = Ok (VStr text) ->
  run_stage k self a b st
  = (Ok (VStr text),
     {| world := world s1; log := log s1;
        stage_results := <[key_of k := VStr text]> (stage_results s1) |}).
Proof.
  intros Hmodel Hinputs Hcall Hpost.
  rewrite (run_stage_template k self a b st m Hmodel Hinputs), Hcall.
  unfold after_call. rewrite Hpost. now destruct k.
Qed.

(** C5 (amended): when the call of a stage succeeds and what the stage
    makes of the response is a text, as when the parser falls back to the
    input, the stage returns the text, stored under its key.  When that text
    is not empty the run goes on: the next stage is entered, or, after
    stage 4, the run reports success.  When it is empty the run ends there
    and reports failure, as after a stage that has failed: nothing is done
    after the stage. *)
Theorem unstructured_output_continues (k : stage) (self : @pipeline Model) (a b : value)
        (st sk s1 : state W) (m : Model) (r : response) (text : str) :
  reached self st k a b sk ->
  model_of k self = Some m ->
  invoke_model_with_retry m (prompt_of k self a b) 3 (wait_of k) (entered k sk)
  = (Ok (Some r), s1) ->
  post_process k r = Ok (VStr text) ->
  run_stage k self a b sk
  = (Ok (VStr text),
     {| world := world s1; log := log s1;
        stage_results := <[key_of k := VStr text]> (stage_results s1) |})
  /\ (text <> [] -> continued k (run_full_pipeline self st))
  /\ (text = [] ->
      run_full_pipeline self st
      = (Ok false,
         {| world := world s1; log := log s1;
            stage_results := <[key_of k := VStr text]> (stage_results s1) |})).
Proof.
  intros Hreached Hmodel Hcall Hpost.
  pose proof (reached_inputs_present _ _ _ _ _ _ Hreached) as Hinputs.
  pose proof (run_stage_text k self a b sk s1 m r text Hmodel Hinputs Hcall Hpost) as Hrun.
  split; [exact Hrun|].
  rewrite (run_full_pipeline_resume _ _ _ _ _ _ Hreached).
  split.
  - intros Htext.
    assert (Htrue : truthy (VStr text) = true) by now destruct text.
    destruct k; cbn [resume continued run_stage] in *.
    + unfold from_stage_1, bind at 1. rewrite Hrun, Htrue. cbn [negb].
      apply announces_entered, from_stage_2_announces.
    + unfold from_stage_2, bind at 1. rewrite Hrun, Htrue. cbn [negb].
      apply announces_entered, from_stage_3_announces.
    + unfold from_stage_3, bind at 1. rewrite Hrun, Htrue. cbn [negb].
      apply announces_entered, from_stage_4_announces.
    + unfold from_stage_4, bind. rewrite Hrun, Htrue. reflexivity.
  - intros ->.
    destruct k; cbn [resume run_stage] in *;
      unfold from_stage_1, from_stage_2, from_stage_3, from_stage_4, bind;
      now rewrite Hrun.
Qed.

(** C6: when stage 1 has succeeded and the calls of stage 2 run out of
    retries, the run reports failure, stages 3 and 4 are not entered, and
    the results hold the entry of stage 1 and nothing else. *)
Theorem stage_2_exhausted_halts (self : @pipeline Model) (w : W)
        (company_details unused : value) (s1 s2 : state W) (m : Model) :
  reached self (fresh w) Stage2 company_details unused s1 ->
  stage_2_model self = Some m ->
  invoke_model_with_retry m (stage_2_prompt company_details) 3 2 (entered Stage2 s1)
  = (Ok None, s2) ->
  run_full_pipeline self (fresh w) = (Ok false, s2)
  /\ stage_entered 3 (log s2) = false
  /\ stage_entered 4 (log s2) = false
  /\ stage_results s2 = {[ lit "company_details" := company_details ]}.
Proof.
  intros Hreached Hmodel Hcall.
  pose proof (reached_inputs_present _ _ _ _ _ _ Hreached) as Hinputs.
  assert (Hstage : stage_2_generate_questions self company_details s1 = (Ok VNone, s2)).
  { change (run_stage Stage2 self company_details unused s1 = (Ok VNone, s2)).
    rewrite (run_stage_template Stage2 self _ _ s1 m Hmodel Hinputs).
    cbn [prompt_of wait_of]. now rewrite Hcall. }
  split.
  { rewrite (run_full_pipeline_resume _ _ _ _ _ _ Hreached). cbn [resume].
    unfold from_stage_2, bind. now rewrite Hstage. }
  apply invoke_model_with_retry_quiet in Hcall as (evs2 & Hlog2 & Hcalls2 & Hres2).
  inversion Hreached as [| cd s1' Hprint Hrun1 Htrue | |]; subst.
  pose proof (run_stage_truthy Stage1 self VNone VNone _ _ _ Hrun1 Htrue) as Hres1.
  apply (run_stage_log Stage1 self VNone VNone) in Hrun1 as (_ & evs1 & Hlog1 & Hcalls1).
  assert (Hnot : forall n, (2 < n)%nat -> stage_entered n (log s2) = false).
  { intros n Hn. rewrite Hlog2. cbn [entered log]. rewrite Hlog1. cbn [fresh log app ordinal].
    unfold stage_entered. cbn [existsb]. rewrite !existsb_app. cbn [existsb is_stage].
    change (existsb (is_stage n) evs1) with (stage_entered n evs1).
    change (existsb (is_stage n) evs2) with (stage_entered n evs2).
    rewrite (calls_only_not_entered n evs1 Hcalls1), (calls_only_not_entered n evs2 Hcalls2).
    destruct n as [|[|[|n]]]; try lia; reflexivity. }
  split; [apply Hnot; lia|]. split; [apply Hnot; lia|].
  rewrite Hres2. cbn [entered stage_results]. rewrite Hres1. cbn [fresh stage_results key_of].
  apply insert_empty.
Qed.

End Properties.

(** ** The reference decoder: its fuel

    The scanners of [Json] run on fuel.  What they decode does not depend on
    it: [Json.loads] gives enough. *)

Section Decoder.
Import Json.

Lemma skip_ws_length (s : str) : (length (skip_ws s) <= length s)%nat.
Proof. induction s as [|c s IH]; cbn; [lia|]. destruct (is_ws c); cbn; lia. Qed.

Lemma span_digits_length (s : str) :
  (length (snd (span_digits s)) <= length s)%nat.
Proof.
  induction s as [|c s IH]; cbn; [lia|].
  destruct (is_digit c); cbn; [|lia].
  destruct (span_digits s) as [ds rest]. cbn in *. lia.
Qed.

Lemma strip_prefix_length (p s r : str) :
  strip_prefix p s = Some r -> (length r + length p = length s)%nat.
Proof.
  revert s; induction p as [|a p IH]; intros s; cbn.
  - intros [= ->]. lia.
  - destruct s as [|b s]; [discriminate|].
    destruct (a =? b)%N; [|discriminate]. intros Hp. apply IH in Hp. cbn. lia.
Qed.

Lemma scan_constant_length (s : str) (v : value) (r : str) :
  scan_constant s = Some (v, r) -> (length r < length s)%nat.
Proof.
  unfold scan_constant.
  repeat (match goal with
          | |- context [strip_prefix ?p s] =>
              let E := fresh "E" in
              destruct (strip_prefix p s) eqn:E;
              [apply strip_prefix_length in E; cbn in E; intros [= <- <-]; lia|]
          end).
  discriminate.
Qed.

Lemma hex4_length (s r : str) (u : N) :
  hex4 s = Some (u, r) -> (length r + 4 = length s)%nat.
Proof.
  unfold hex4. destruct s as [|a [|b [|c [|d rest]]]]; try discriminate.
  destruct (hex_val a), (hex_val b), (hex_val c), (hex_val d); try discriminate.
  intros [= <- <-]. cbn. lia.
Qed.

Lemma scan_string_length (fuel : nat) :
  forall (s acc text r : str),
    scan_string fuel s acc = Some (text, r) -> (length r < length s)%nat.
Proof.
  induction fuel as [|fuel IH]; intros s acc text r; cbn; [discriminate|].
  destruct s as [|c rest]; [discriminate|].
  destruct (c =? quote)%N; [intros [= <- <-]; cbn; lia|].
  destruct (c =? backslash)%N.
  - destruct rest as [|e rest1]; [discriminate|].
    destruct (e =? 117)%N.
    + destruct (hex4 rest1) as [[u rest2]|] eqn:Eh; [|discriminate].
      apply hex4_length in Eh.
      destruct rest2 as [|b [|u' rest3]].
      * intros Hs. apply IH in Hs. cbn in *. lia.
      * intros Hs. apply IH in Hs. cbn in *. lia.
      * destruct (is_high_surrogate u && (b =? backslash)%N && (u' =? 117)%N).
        -- destruct (hex4 rest3) as [[u2 rest4]|] eqn:Eh2; [|discriminate].
           apply hex4_length in Eh2.
           destruct (is_low_surrogate u2); intros Hs; apply IH in Hs; cbn in *; lia.
        -- intros Hs. apply IH in Hs. cbn in *. lia.
    + destruct (simple_escape e); [|discriminate].
      intros Hs. apply IH in Hs. cbn in *. lia.
  - destruct (c <? 32)%N; [discriminate|].
    intros Hs. apply IH in Hs. cbn in *. lia.
Qed.

Lemma scan_number_length (s : str) (v : value) (r : str) :
  scan_number s = Some (v, r) -> (length r < length s)%nat.
Proof.
  unfold scan_number.
  set (neg := match s with c :: s' => if (c =? minus)%N then (true, s') else (false, s) | [] => (false, s) end).
  assert (Hneg : (length (snd neg) <= length s)%nat).
  { subst neg. destruct s as [|c s']; cbn; [lia|]. destruct (c =? minus)%N; cbn; lia. }
  destruct neg as [negative s1]. cbn [snd] in Hneg.
  destruct s1 as [|c s']; [discriminate|].
  set (int_part := if (c =? 48)%N then Some ([c], s') else if is_digit c then Some (span_digits (c :: s')) else None).
  assert (Hint : forall ds s2, int_part = Some (ds, s2) -> (length s2 < length (c :: s'))%nat).
  { subst int_part. intros ds s2. destruct (c =? 48)%N; [intros [= <- <-]; cbn; lia|].
    destruct (is_digit c) eqn:Ed; [|discriminate].
    cbn [span_digits]. rewrite Ed.
    pose proof (span_digits_length s') as Hl.
    destruct (span_digits s') as [ds' rest]. intros [= <- <-]. cbn in *. lia. }
  destruct int_part as [[ds s2]|]; [|discriminate].
  specialize (Hint ds s2 eq_refl).
  set (fr := match s2 with p :: d :: _ => if (p =? dot)%N && is_digit d then span_digits (tl s2) else ([], s2) | _ => ([], s2) end).
  assert (Hfr : (length (snd fr) <= length s2)%nat).
  { subst fr. destruct s2 as [|p [|d s2']]; cbn [snd]; try lia.
    destruct ((p =? dot)%N && is_digit d); cbn [snd]; [|lia].
    change (tl (p :: d :: s2')) with (d :: s2').
    pose proof (span_digits_length (d :: s2')) as Hl.
    eapply Nat.le_trans; [exact Hl|]. cbn [length]. lia. }
  destruct fr as [frac s3]. cbn [snd] in Hfr.
  set (ex := match s3 with
          | e :: s' =>
              if ((e =? 101) || (e =? 69))%N then
                let (esign, s'') :=
                  match s' with
                  | c :: t => if (c =? minus)%N then (-1, t)
                              else if (c =? plus)%N then (1, t) else (1, s')
                  | [] => (1, s')
                  end in
                match span_digits s'' with
                | ([], _) => (None, s3)
                | (eds, rest) => (Some (esign * Z_of_digits eds), rest)
                end
              else (None, s3)
          | [] => (None, s3)
          end%Z).
  assert (Hex : (length (snd ex) <= length s3)%nat).
  { subst ex. destruct s3 as [|e s3']; cbn [snd]; [lia|].
    destruct ((e =? 101) || (e =? 69))%N; cbn [snd]; [|lia].
    set (sg := match s3' with c :: t => if (c =? minus)%N then ((-1)%Z, t) else if (c =? plus)%N then (1%Z, t) else (1%Z, s3') | [] => (1%Z, s3') end).
    assert (Hsg : (length (snd sg) <= length s3')%nat).
    { subst sg. destruct s3' as [|c0 t]; cbn; [lia|].
      destruct (c0 =? minus)%N; cbn; [lia|]. destruct (c0 =? plus)%N; cbn; lia. }
    destruct sg as [esign s'']. cbn [snd] in Hsg.
    pose proof (span_digits_length s'') as Hl.
    destruct (span_digits s'') as [[|d eds] rest]; cbn [snd] in *; cbn; lia. }
  destruct ex as [expo s4]. cbn [snd] in Hex.
  destruct frac, expo; intros [= <- <-]; cbn in *; lia.
Qed.

(** One more unit of fuel on the goal's side. *)
Ltac more_fuel g :=
  let g' := fresh g in
  destruct g as [|g']; [cbn [length] in *; lia|];
  cbn [scan_once scan_elements scan_members].

(** A scan that succeeds eats at least one character, and succeeds alike
    with any fuel from twice the number of characters it eats. *)
Lemma scan_fuel_enough (f : nat) :
  (forall s v r,
      scan_once f s = Some (v, r) ->
      (length r < length s)%nat /\
      forall g, (2 * (length s - length r) <= g)%nat -> scan_once g s = Some (v, r))
  /\ (forall s acc v r,
      scan_elements f s acc = Some (v, r) ->
      (length r < length s)%nat /\
      forall g, (2 * (length s - length r) <= g)%nat -> scan_elements g s acc = Some (v, r))
  /\ (forall s acc v r,
      scan_members f s acc = Some (v, r) ->
      (length r < length s)%nat /\
      forall g, (2 * (length s - length r) <= g)%nat -> scan_members g s acc = Some (v, r)).
Proof.
  induction f as [|f (IHonce & IHelements & IHmembers)];
    [repeat split; intros; discriminate|].
  split; [|split].
  - intros s v r. cbn [scan_once].
    destruct s as [|c rest]; [discriminate|].
    destruct (c =? quote)%N eqn:Equote.
    { destruct (scan_string (length rest) rest []) as [[text r']|] eqn:Estring; [|discriminate].
      intros [= <- <-]. apply scan_string_length in Estring as Hlen.
      split; [cbn; lia|]. intros g Hg. more_fuel g. now rewrite Equote, Estring. }
    destruct (c =? lbrace)%N eqn:Ebrace.
    { pose proof (skip_ws_length rest) as Hws.
      destruct (skip_ws rest) as [|c1 r1] eqn:Ews; [discriminate|].
      destruct (c1 =? rbrace)%N eqn:Eclose.
      - intros [= <- <-]. cbn [length] in *. split; [lia|].
        intros g Hg. more_fuel g. now rewrite Equote, Ebrace, Ews, Eclose.
      - intros Hscan. apply IHmembers in Hscan as [Hlen Hmore].
        cbn [length] in *. split; [lia|].
        intros g Hg. more_fuel g. rewrite Equote, Ebrace, Ews, Eclose.
        apply Hmore. cbn [length]. lia. }
    destruct (c =? lbracket)%N eqn:Ebracket.
    { pose proof (skip_ws_length rest) as Hws.
      destruct (skip_ws rest) as [|c1 r1] eqn:Ews; [discriminate|].
      destruct (c1 =? rbracket)%N eqn:Eclose.
      - intros [= <- <-]. cbn [length] in *. split; [lia|].
        intros g Hg. more_fuel g. now rewrite Equote, Ebrace, Ebracket, Ews, Eclose.
      - intros Hscan. apply IHelements in Hscan as [Hlen Hmore].
        cbn [length] in *. split; [lia|].
        intros g Hg. more_fuel g. rewrite Equote, Ebrace, Ebracket, Ews, Eclose.
        apply Hmore. cbn [length]. lia. }
    destruct (scan_constant (c :: rest)) as [[v' r']|] eqn:Econstant.
    { intros [= <- <-]. apply scan_constant_length in Econstant as Hlen.
      split; [exact Hlen|]. intros g Hg. more_fuel g.
      now rewrite Equote, Ebrace, Ebracket, Econstant. }
    intros Hnumber. apply scan_number_length in Hnumber as Hlen.
    split; [exact Hlen|]. intros g Hg. more_fuel g.
    now rewrite Equote, Ebrace, Ebracket, Econstant.
  - intros s acc v r. cbn [scan_elements].
    destruct (scan_once f s) as [[v1 r1]|] eqn:Eonce; [|discriminate].
    apply IHonce in Eonce as [Hlen1 Hmore1].
    pose proof (skip_ws_length r1) as Hws.
    destruct (skip_ws r1) as [|c r2] eqn:Ews; [discriminate|].
    cbn [length] in Hws.
    destruct (c =? rbracket)%N eqn:Eclose.
    { intros [= <- <-]. split; [lia|].
      intros g Hg. more_fuel g. rewrite Hmore1 by lia. now rewrite Ews, Eclose. }
    destruct (c =? comma)%N eqn:Ecomma; [|discriminate].
    intros Hscan. apply IHelements in Hscan as [Hlen Hmore].
    pose proof (skip_ws_length r2) as Hws2.
    split; [lia|].
    intros g Hg. more_fuel g. rewrite Hmore1 by lia. rewrite Ews, Eclose, Ecomma.
    apply Hmore. lia.
  - intros s acc v r. cbn [scan_members].
    destruct s as [|q s1]; [discriminate|].
    destruct (q =? quote)%N eqn:Equote; [|discriminate].
    destruct (scan_string (length s1) s1 []) as [[key r0]|] eqn:Ekey; [|discriminate].
    apply scan_string_length in Ekey as Hkey.
    pose proof (skip_ws_length r0) as Hws0.
    destruct (skip_ws r0) as [|c r1] eqn:Ews0; [discriminate|].
    cbn [length] in Hws0.
    destruct (c =? colon)%N eqn:Ecolon; [|discriminate].
    pose proof (skip_ws_length r1) as Hws1.
    destruct (scan_once f (skip_ws r1)) as [[v1 r2]|] eqn:Eonce; [|discriminate].
    apply IHonce in Eonce as [Hlen1 Hmore1].
    pose proof (skip_ws_length r2) as Hws2.
    destruct (skip_ws r2) as [|c2 r3] eqn:Ews2; [discriminate|].
    cbn [length] in Hws2.
    destruct (c2 =? rbrace)%N eqn:Eclose.
    { intros [= <- <-]. cbn [length]. split; [lia|].
      intros g Hg. more_fuel g. rewrite Equote, Ekey, Ews0, Ecolon.
      rewrite Hmore1 by lia. now rewrite Ews2, Eclose. }
    destruct (c2 =? comma)%N eqn:Ecomma; [|discriminate].
    intros Hscan. apply IHmembers in Hscan as [Hlen Hmore].
    pose proof (skip_ws_length r3) as Hws3.
    cbn [length]. split; [lia|].
    intros g Hg. more_fuel g. rewrite Equote, Ekey, Ews0, Ecolon.
    rewrite Hmore1 by lia. rewrite Ews2, Eclose, Ecomma.
    apply Hmore. lia.
Qed.

(** The fuel that [loads] gives is enough: a term that some fuel decodes is
    decoded by [loads] as well. *)
Lemma loads_fuel_enough (f : nat) (s : str) (v : value) (r : str) :
  scan_once f (skip_ws s) = Some (v, r) ->
  scan_once (2 * length s + 2) (skip_ws s) = Some (v, r).
Proof.
  intros Hscan. apply scan_fuel_enough in Hscan as [Hlen Hmore].
  apply Hmore. pose proof (skip_ws_length s). lia.
Qed.

End Decoder.

(** * The properties at work

    Runs of the embedding on the executable runtime, a scripted model and a
    pipeline whose four stages share it. *)

Section Examples.
#[local] Existing Instance ReferenceRuntime.
#[local] Existing Instance SamplePrompts.
#[local] Existing Instance Scripted.

(** ** Recovery parser *)

(** C1, as stated, fails on the text [null]: no strategy hands back a dict
    or a list, and the parser returns [None], not the text. *)
Lemma try_parse_json_null_counterexample :
  forallb (fun a => negb (structured a)) (strategies (lit "null")) = true
  /\ try_parse_json (VStr (lit "null")) = Ok VNone
  /\ try_parse_json (VStr (lit "null")) <> Ok (VStr (lit "null")).
Proof.
  split; [vm_compute; reflexivity|]. split; [vm_compute; reflexivity|].
  vm_compute. discriminate.
Qed.

(** The three parts of the property: a text that no strategy makes
    anything of, a number in a fence that strategy 2 decodes, and a number
    that strategy 1 decodes. *)
Lemma try_parse_json_passthrough_witness :
  (forallb falls_through (strategies (lit "I cannot comply.")) = true
   /\ try_parse_json (VStr (lit "I cannot comply.")) = Ok (VStr (lit "I cannot comply.")))
  /\ (forallb falls_through (take 1 (strategies (lit "```7```"))) = true
      /\ strategies (lit "```7```") !! 1%nat = Some (Returned (VInt 7))
      /\ try_parse_json (VStr (lit "```7```")) = Ok (VInt 7))
  /\ (forallb falls_through (take 0 (strategies (lit "7"))) = true
      /\ strategies (lit "7") !! 0%nat = Some (try_loads is_JSONDecodeError (lit "7"))
      /\ json_loads (lit "7") = Ok (VInt 7)
      /\ try_parse_json (VStr (lit "7")) = Ok (VInt 7)).
Proof.
  split; [|split].
  - split; [vm_compute; reflexivity|].
    apply (proj1 (try_parse_json_passthrough (lit "I cannot comply."))).
    vm_compute; reflexivity.
  - split; [vm_compute; reflexivity|]. split; [vm_compute; reflexivity|].
    apply (proj1 (proj2 (try_parse_json_passthrough (lit "```7```"))) 1%nat (VInt 7)).
    + lia.
    + vm_compute; reflexivity.
    + vm_compute; reflexivity.
  - split; [reflexivity|]. split; [reflexivity|]. split; [vm_compute; reflexivity|].
    apply (proj2 (proj2 (try_parse_json_passthrough (lit "7")))
             0%nat is_JSONDecodeError (lit "7") (VInt 7)).
    + lia.
    + reflexivity.
    + reflexivity.
    + vm_compute; reflexivity.
Defined.

(** The reference decoder raises decode errors only, so that on it the
    parser returns on every input. *)
Lemma reference_decode_errors_only : decode_errors_only.
Proof.
  intros text e. cbn [json_loads ReferenceRuntime]. unfold Json.loads.
  destruct text as [|c text].
  - destruct (Json.scan_once _ _) as [[v rest]|]; [destruct (Json.skip_ws rest)|];
      now intros [= <-].
  - destruct (Json.scan_once _ _) as [[v rest]|]; [destruct (Json.skip_ws rest)|];
      repeat (match goal with
              | |- context [match ?x with _ => _ end] => destruct x
              end); now intros [= <-].
Qed.

Example reference_parser_returns (json_str : value) :
  exists v, try_parse_json json_str = Ok v.
Proof. apply try_parse_json_never_raises, reference_decode_errors_only. Qed.

Lemma try_parse_json_structured_witness :
  is_str (VList [VInt 1; VInt 2]) = false
  /\ try_parse_json (VList [VInt 1; VInt 2]) = Ok (VList [VInt 1; VInt 2])
  /\ forall input,
       try_parse_json input = Ok (VList [VInt 1; VInt 2]) ->
       match try_parse_json input with
       | Ok once => try_parse_json once
       | Raise e => Raise e
       end = Ok (VList [VInt 1; VInt 2]).
Proof.
  split; [reflexivity|].
  apply (try_parse_json_structured (VList [VInt 1; VInt 2])). reflexivity.
Defined.

(** ** Text extractor *)



(** ** Invocation wrapper *)

(** C2, as stated, fails when the message of a failure cannot be printed:
    the [print] of the handler raises, and the exception leaves the wrapper
    after the first call, the answer that the second call would have got
    not asked for.  It fails as well for a wait that [time.sleep] refuses:
    ten thousand million seconds are too long, a negative wait is no
    length. *)
Lemma invoke_model_with_retry_raises_counterexample :
  invoke_model_with_retry tt (lit "prompt") 3 2
    (fresh [Unprintable OtherException; says "done"])
  = (Raise UnicodeEncodeError,
     {| world := [says "done"];
        log := [EAttempt 0 (lit "prompt") (Unprintable OtherException)];
        stage_results := ∅ |})
  /\ invoke_model_with_retry tt (lit "prompt") 3 10000000000
       (fresh [Failed OtherException; says "done"])
     = (Raise OverflowError,
        {| world := [says "done"];
           log := [EAttempt 0 (lit "prompt") (Failed OtherException)];
           stage_results := ∅ |})
  /\ invoke_model_with_retry tt (lit "prompt") 3 (-1)
       (fresh [Failed OtherException; says "done"])
     = (Raise ValueError,
        {| world := [says "done"];
           log := [EAttempt 0 (lit "prompt") (Failed OtherException)];
           stage_results := ∅ |}).
Proof. repeat split. Qed.

(** A first call that fails, a wait of 2, then a call that fails with a
    message that cannot be printed: the wrapper raises, the third outcome
    of the script is not asked for. *)
Lemma invoke_model_with_retry_backoff_witness :
  0 <= 2
  /\ (forall attempt, 0 <= attempt < 3 - 1 -> 2 * 2 ^ attempt <= sleep_max)
  /\ invoke_model_with_retry tt (lit "prompt") 3 2
       (fresh [Failed OtherException; Unprintable OtherException; says "done"])
     = (Raise UnicodeEncodeError,
        {| world := [says "done"];
           log := [EAttempt 0 (lit "prompt") (Failed OtherException); ESleep 2;
                   EAttempt 1 (lit "prompt") (Unprintable OtherException)];
           stage_results := ∅ |})
  /\ exists r st' evs errors,
       invoke_model_with_retry tt (lit "prompt") 3 2
         (fresh [Failed OtherException; Unprintable OtherException; says "done"])
       = (r, st')
       /\ log st' = [] ++ evs
       /\ plays tt [Failed OtherException; Unprintable OtherException; says "done"] evs
            (world st')
       /\ stage_results st' = ∅
       /\ Z.of_nat (attempts evs) <= Z.max 0 3
       /\ match r with
          | Ok (Some resp) =>
              evs = backoff_log (lit "prompt") 2 0 errors
                    ++ [EAttempt (Z.of_nat (length errors)) (lit "prompt") (Responded resp)]
          | Ok None =>
              (3 <= 0 /\ evs = []) \/
              (exists e, Z.of_nat (length errors) = 3 - 1 /\
                 evs = backoff_log (lit "prompt") 2 0 errors
                       ++ [EAttempt (3 - 1) (lit "prompt") (Failed e)])
          | Raise raised =>
              raised = UnicodeEncodeError /\
              exists e,
                evs = backoff_log (lit "prompt") 2 0 errors
                      ++ [EAttempt (Z.of_nat (length errors)) (lit "prompt") (Unprintable e)]
          end.
Proof.
  assert (Hshort : forall attempt, 0 <= attempt < 3 - 1 -> 2 * 2 ^ attempt <= sleep_max).
  { intros attempt Hattempt. cbn [sleep_max Scripted].
    assert (Hcases : attempt = 0 \/ attempt = 1) by lia.
    destruct Hcases as [-> | ->]; cbn; lia. }
  split; [lia|]. split; [exact Hshort|]. split; [reflexivity|].
  exact (invoke_model_with_retry_backoff tt (lit "prompt") 3 2
           (fresh [Failed OtherException; Unprintable OtherException; says "done"])
           ltac:(lia) Hshort).
Defined.

(** The run of the witness above: two failures, waits of 2 and 4, then
    the answer of the third call. *)
Example invoke_model_with_retry_third_time :
  invoke_model_with_retry tt (lit "prompt") 3 2
    (fresh [Failed OtherException; Failed OtherException; says "done"])
  = (Ok (Some {| content := VStr (lit "done") |}),
     {| world := [];
        log := [EAttempt 0 (lit "prompt") (Failed OtherException); ESleep 2;
                EAttempt 1 (lit "prompt") (Failed OtherException); ESleep 4;
                EAttempt 2 (lit "prompt") (says "done")];
        stage_results := ∅ |}).
Proof. reflexivity. Qed.

(** The longest wait that [time.sleep] takes, and the first that it
    refuses. *)
Example invoke_model_with_retry_longest_wait :
  fst (invoke_model_with_retry tt (lit "prompt") 2 9223372036
         (fresh [Failed OtherException; says "done"]))
  = Ok (Some {| content := VStr (lit "done") |})
  /\ fst (invoke_model_with_retry tt (lit "prompt") 2 9223372037
            (fresh [Failed OtherException; says "done"]))
     = Raise OverflowError.
Proof. split; reflexivity. Qed.

Lemma invoke_model_with_retry_no_budget_witness :
  0 <= 0
  /\ invoke_model_with_retry tt (lit "prompt") 0 2 (fresh [says "done"])
     = (Ok None, fresh [says "done"]).
Proof.
  split; [lia|].
  apply (invoke_model_with_retry_no_budget tt (lit "prompt") 0 2 (fresh [says "done"])).
  lia.
Defined.

(** ** Stages *)

(** C4, as stated, fails for stage 1: to the answer [[1, 2]] stage 1 stores
    the text, where the Recovery Parser would have made a list of it. *)
Lemma stage_1_stores_text_counterexample :
  model_of Stage1 sample_pipeline = Some tt
  /\ inputs_present Stage1 VNone VNone = true
  /\ invoke_model_with_retry tt (prompt_of Stage1 sample_pipeline VNone VNone) 3
       (wait_of Stage1) (entered Stage1 (fresh [says "[1, 2]"]))
     = (Ok (Some {| content := VStr (lit "[1, 2]") |}),
        {| world := [];
           log := [EStage 1;
                   EAttempt 0 (stage_1_prompt sample_pipeline) (says "[1, 2]")];
           stage_results := ∅ |})
  /\ extract_then_parse {| content := VStr (lit "[1, 2]") |} = Ok (VList [VInt 1; VInt 2])
  /\ stage_results (snd (run_stage Stage1 sample_pipeline VNone VNone (fresh [says "[1, 2]"])))
     = {[ lit "company_details" := VStr (lit "[1, 2]") ]}
  /\ stage_results (snd (run_stage Stage1 sample_pipeline VNone VNone (fresh [says "[1, 2]"])))
     <> stored (key_of Stage1) (extract_then_parse {| content := VStr (lit "[1, 2]") |}) ∅.
Proof.
  split; [reflexivity|]. split; [reflexivity|]. split; [reflexivity|].
  split; [vm_compute; reflexivity|]. split; [vm_compute; reflexivity|].
  intros Heq. apply (f_equal (fun results => results !! lit "company_details")) in Heq.
  vm_compute in Heq. discriminate.
Qed.

Lemma stage_stores_processed_response_witness :
  model_of Stage2 sample_pipeline = Some tt
  /\ inputs_present Stage2 (VStr (lit "details")) VNone = true
  /\ stage_results
       (snd (run_stage Stage2 sample_pipeline (VStr (lit "details")) VNone
               (fresh [says "[1, 2]"])))
     = stored (key_of Stage2) (post_process Stage2 {| content := VStr (lit "[1, 2]") |}) ∅.
Proof.
  split; [reflexivity|]. split; [reflexivity|].
  apply (stage_stores_processed_response Stage2 sample_pipeline (VStr (lit "details")) VNone
           (fresh [says "[1, 2]"])
           {| world := [];
              log := [EStage 2;
                      EAttempt 0 (stage_2_prompt (VStr (lit "details"))) (says "[1, 2]")];
              stage_results := ∅ |}
           tt {| content := VStr (lit "[1, 2]") |});
    reflexivity.
Defined.

(** The progress line of stage 2 shows the keys that end in [_questions]
    without that ending; a key that [sys.stdout] cannot encode makes it
    raise, and the stage returns [None] with its result stored. *)
Example report_2_stakeholders :
  remove_all (lit "_questions") (lit "investor_questions") = lit "investor"
  /\ report_2 (VDict [(lit "investor_questions", VList []); (55296%N :: lit "x", VInt 1)])
     = Ok tt
  /\ report_2 (VDict [(55296%N :: lit "_questions", VList [])]) = Raise UnicodeEncodeError.
Proof. repeat split. Qed.

Example stage_2_unprintable_key :
  let answer :=
    lbrace :: Json.quote :: lit "\ud800_questions" ++ Json.quote :: lit ": []" ++ [rbrace] in
  json_loads answer = Ok (VDict [(55296%N :: lit "_questions", VList [])])
  /\ run_stage Stage2 sample_pipeline (VStr (lit "details")) VNone
       (fresh [Responded {| content := VStr answer |}])
     = (Ok VNone,
        {| world := [];
           log := [EStage 2;
                   EAttempt 0 (stage_2_prompt (VStr (lit "details")))
                     (Responded {| content := VStr answer |})];
           stage_results :=
             {[ lit "questions" := VDict [(55296%N :: lit "_questions", VList [])] ]} |}).
Proof. split; vm_compute; reflexivity. Qed.

(** The progress lines of stage 4 show two values of the summary. *)
Example report_4_summary :
  report_4 (VDict [(lit "overall_summary", VList [])]) = Raise AttributeError
  /\ report_4 (VDict [(lit "overall_summary",
                       VDict [(lit "average_logical_score", VInt 7)])]) = Ok tt
  /\ report_4 (VDict [(lit "overall_summary",
                       VDict [(lit "overall_company_risk_signal", VStr [55296%N])])])
     = Raise UnicodeEncodeError.
Proof. repeat split. Qed.

(** What the witness above stores: the list, not the text. *)
Example stage_2_stores_list :
  stage_results
    (snd (run_stage Stage2 sample_pipeline (VStr (lit "details")) VNone
            (fresh [says "[1, 2]"])))
  = {[ lit "questions" := VList [VInt 1; VInt 2] ]}.
Proof. vm_compute. reflexivity. Qed.

(** C7: two calls of stage 4 with different questions send the same
    prompt, which has the answers in it and nothing of the questions. *)
Example stage_4_prompt_without_questions :
  stage_4_prompt (VStr (lit "Who owns it?")) (VStr (lit "Nobody."))
  = lit "Input: Nobody. Your task: For EACH response, evaluate."
  /\ stage_4_prompt (VStr (lit "Is it safe?")) (VStr (lit "Nobody."))
     = lit "Input: Nobody. Your task: For EACH response, evaluate."
  /\ stage_3_prompt (VStr (lit "A firm.")) (VStr (lit "Who owns it?"))
     = lit "Company Profile: A firm. Stakeholder Questions: Who owns it? Answer ALL questions.".
Proof. repeat split. Qed.

(** ** Orchestrator *)

(** C5, as stated, fails on an empty answer: the call of stage 2 succeeds,
    the parser hands the empty text back, and the run stops there with a
    failure, stage 3 not entered. *)
Lemma empty_text_halts_counterexample :
  reached sample_pipeline (fresh [says "details"; says_nothing]) Stage2 (VStr (lit "details")) VNone
    (snd (stage_1_company_details sample_pipeline (fresh [says "details"; says_nothing])))
  /\ fst (invoke_model_with_retry tt (stage_2_prompt (VStr (lit "details"))) 3 2
            (entered Stage2
               (snd (stage_1_company_details sample_pipeline
                       (fresh [says "details"; says_nothing])))))
     = Ok (Some {| content := VStr [] |})
  /\ post_process Stage2 {| content := VStr [] |} = Ok (VStr [])
  /\ fst (run_full_pipeline sample_pipeline (fresh [says "details"; says_nothing])) = Ok false
  /\ stage_results (snd (run_full_pipeline sample_pipeline (fresh [says "details"; says_nothing])))
     !! lit "questions" = Some (VStr [])
  /\ ~ continued Stage2 (run_full_pipeline sample_pipeline (fresh [says "details"; says_nothing])).
Proof.
  split; [apply reached_2; vm_compute; reflexivity|].
  split; [vm_compute; reflexivity|]. split; [vm_compute; reflexivity|].
  split; [vm_compute; reflexivity|]. split; [vm_compute; reflexivity|].
  unfold continued. vm_compute. discriminate.
Qed.

(** Stage 2 answers with a text that is no JSON: stage 3 is entered.  It
    answers with the empty text: the run ends there. *)
Lemma unstructured_output_continues_witness :
  (reached sample_pipeline (fresh [says "details"; says "I cannot comply."]) Stage2
     (VStr (lit "details")) VNone
     (snd (stage_1_company_details sample_pipeline
             (fresh [says "details"; says "I cannot comply."])))
   /\ post_process Stage2 {| content := VStr (lit "I cannot comply.") |}
      = Ok (VStr (lit "I cannot comply."))
   /\ lit "I cannot comply." <> []
   /\ continued Stage2
        (run_full_pipeline sample_pipeline (fresh [says "details"; says "I cannot comply."])))
  /\ (reached sample_pipeline (fresh [says "details"; says_nothing]) Stage2
        (VStr (lit "details")) VNone
        (snd (stage_1_company_details sample_pipeline (fresh [says "details"; says_nothing])))
      /\ post_process Stage2 {| content := VStr [] |} = Ok (VStr [])
      /\ fst (run_full_pipeline sample_pipeline (fresh [says "details"; says_nothing]))
         = Ok false).
Proof.
  split.
  - assert (Hreached :
      reached sample_pipeline (fresh [says "details"; says "I cannot comply."]) Stage2
        (VStr (lit "details")) VNone
        (snd (stage_1_company_details sample_pipeline
                (fresh [says "details"; says "I cannot comply."]))))
      by (apply reached_2; vm_compute; reflexivity).
    split; [exact Hreached|]. split; [vm_compute; reflexivity|]. split; [discriminate|].
    refine (proj1 (proj2
      (unstructured_output_continues Stage2 sample_pipeline (VStr (lit "details")) VNone
         (fresh [says "details"; says "I cannot comply."])
         (snd (stage_1_company_details sample_pipeline
                 (fresh [says "details"; says "I cannot comply."])))
         (snd (invoke_model_with_retry tt (stage_2_prompt (VStr (lit "details"))) 3 2
                 (entered Stage2
                    (snd (stage_1_company_details sample_pipeline
                            (fresh [says "details"; says "I cannot comply."]))))))
         tt {| content := VStr (lit "I cannot comply.") |} (lit "I cannot comply.")
         Hreached _ _ _)) _).
    + reflexivity.
    + vm_compute; reflexivity.
    + vm_compute; reflexivity.
    + discriminate.
  - assert (Hreached :
      reached sample_pipeline (fresh [says "details"; says_nothing]) Stage2
        (VStr (lit "details")) VNone
        (snd (stage_1_company_details sample_pipeline (fresh [says "details"; says_nothing]))))
      by (apply reached_2; vm_compute; reflexivity).
    split; [exact Hreached|]. split; [vm_compute; reflexivity|].
    assert (Hcall :
      invoke_model_with_retry tt (prompt_of Stage2 sample_pipeline (VStr (lit "details")) VNone)
        3 (wait_of Stage2)
        (entered Stage2
           (snd (stage_1_company_details sample_pipeline
                   (fresh [says "details"; says_nothing]))))
      = (Ok (Some {| content := VStr [] |}),
         snd (invoke_model_with_retry tt (stage_2_prompt (VStr (lit "details"))) 3 2
                (entered Stage2
                   (snd (stage_1_company_details sample_pipeline
                           (fresh [says "details"; says_nothing])))))))
      by (vm_compute; reflexivity).
    assert (Hpost : post_process Stage2 {| content := VStr [] |} = Ok (VStr []))
      by (vm_compute; reflexivity).
    rewrite (proj2 (proj2
      (unstructured_output_continues Stage2 sample_pipeline (VStr (lit "details")) VNone
         (fresh [says "details"; says_nothing])
         (snd (stage_1_company_details sample_pipeline (fresh [says "details"; says_nothing])))
         (snd (invoke_model_with_retry tt (stage_2_prompt (VStr (lit "details"))) 3 2
                 (entered Stage2
                    (snd (stage_1_company_details sample_pipeline
                            (fresh [says "details"; says_nothing]))))))
         tt {| content := VStr [] |} [] Hreached eq_refl Hcall Hpost))
      eq_refl).
    reflexivity.
Defined.

Lemma stage_2_exhausted_halts_witness :
  reached sample_pipeline (fresh [says "details"]) Stage2 (VStr (lit "details")) VNone
    (snd (stage_1_company_details sample_pipeline (fresh [says "details"])))
  /\ fst (run_full_pipeline sample_pipeline (fresh [says "details"])) = Ok false
  /\ stage_entered 3 (log (snd (run_full_pipeline sample_pipeline (fresh [says "details"]))))
     = false
  /\ stage_entered 4 (log (snd (run_full_pipeline sample_pipeline (fresh [says "details"]))))
     = false
  /\ stage_results (snd (run_full_pipeline sample_pipeline (fresh [says "details"])))
     = {[ lit "company_details" := VStr (lit "details") ]}.
Proof.
  assert (Hreached :
    reached sample_pipeline (fresh [says "details"]) Stage2 (VStr (lit "details")) VNone
      (snd (stage_1_company_details sample_pipeline (fresh [says "details"]))))
    by (apply reached_2; vm_compute; reflexivity).
  split; [exact Hreached|].
  destruct (stage_2_exhausted_halts sample_pipeline [says "details"] (VStr (lit "details")) VNone
              (snd (stage_1_company_details sample_pipeline (fresh [says "details"])))
              (snd (invoke_model_with_retry tt (stage_2_prompt (VStr (lit "details"))) 3 2
                      (entered Stage2
                         (snd (stage_1_company_details sample_pipeline
                                 (fresh [says "details"]))))))
              tt Hreached)
    as (Hrun & Hthree & Hfour & Hresults).
  - reflexivity.
  - vm_compute; reflexivity.
  - rewrite Hrun. cbn [fst snd]. repeat split; assumption.
Defined.

(** The log of the run above: the three failed calls of stage 2, with
    waits of 2 and 4 between them, and no stage after it. *)
Example stage_2_exhausted_log :
  log (snd (run_full_pipeline sample_pipeline (fresh [says "details"])))
  = [EStage 1; EAttempt 0 (stage_1_prompt sample_pipeline) (says "details");
     EStage 2;
     EAttempt 0 (stage_2_prompt (VStr (lit "details"))) (Failed OtherException); ESleep 2;
     EAttempt 1 (stage_2_prompt (VStr (lit "details"))) (Failed OtherException); ESleep 4;
     EAttempt 2 (stage_2_prompt (VStr (lit "details"))) (Failed OtherException)].
Proof. vm_compute. reflexivity. Qed.

End Examples.

(** * Further properties *)

Set Warnings "-clear-no-such-hyp".

Section Strings.

Lemma part_of_refl (s : str) : part_of s s.
Proof. exists [], []. now rewrite app_nil_r. Qed.

Lemma part_of_trans (a b c : str) : part_of a b -> part_of b c -> part_of a c.
Proof.
  intros (p1 & q1 & ->) (p2 & q2 & ->). exists (p2 ++ p1), (q1 ++ q2).
  now rewrite <- !app_assoc.
Qed.

Lemma part_of_skipn (n : nat) (s : str) : part_of (skipn n s) s.
Proof. exists (firstn n s), []. now rewrite app_nil_r, firstn_skipn. Qed.

Lemma part_of_firstn (n : nat) (s : str) : part_of (firstn n s) s.
Proof. exists [], (skipn n s). cbn. now rewrite firstn_skipn. Qed.

Lemma part_of_slice (lo hi : Z) (s : str) : part_of (slice lo hi s) s.
Proof.
  unfold slice. eapply part_of_trans; [apply part_of_firstn | apply part_of_skipn].
Qed.

Lemma part_of_length (t s : str) : part_of t s -> (length t <= length s)%nat.
Proof. intros (p & q & ->). rewrite !length_app. lia. Qed.

Lemma lstrip_part (s : str) : part_of (lstrip s) s.
Proof.
  induction s as [|c s IH]; cbn; [apply part_of_refl|].
  destruct (isspace c); [|apply part_of_refl].
  destruct IH as (p & q & Hs). exists (c :: p), q. cbn. now rewrite <- Hs.
Qed.

Lemma part_of_rev (t s : str) : part_of t s -> part_of (rev t) (rev s).
Proof.
  intros (p & q & ->). exists (rev q), (rev p).
  now rewrite !rev_app_distr, <- app_assoc.
Qed.

Lemma rstrip_part (s : str) : part_of (rstrip s) s.
Proof.
  unfold rstrip. rewrite <- (rev_involutive s) at 2.
  apply part_of_rev, lstrip_part.
Qed.

Lemma strip_part (s : str) : part_of (strip s) s.
Proof.
  unfold strip. eapply part_of_trans; [apply rstrip_part | apply lstrip_part].
Qed.

Lemma lstrip_head (c : N) (s : str) : isspace c = false -> lstrip (c :: s) = c :: s.
Proof. intros Hc. cbn. now rewrite Hc. Qed.

Lemma lstrip_idempotent (s : str) : lstrip (lstrip s) = lstrip s.
Proof.
  induction s as [|c s IH]; [reflexivity|]. cbn.
  destruct (isspace c) eqn:Hc; [exact IH|]. now apply lstrip_head.
Qed.

Lemma lstrip_app_last (s : str) (c : N) :
  isspace c = false -> lstrip (s ++ [c]) = lstrip s ++ [c].
Proof.
  intros Hc. induction s as [|a s IH]; cbn; [now rewrite Hc|].
  now destruct (isspace a).
Qed.

Lemma rstrip_last (s : str) (c : N) : isspace c = false -> rstrip (s ++ [c]) = s ++ [c].
Proof.
  intros Hc. unfold rstrip. rewrite rev_app_distr. cbn [rev app].
  rewrite lstrip_head by exact Hc. cbn [rev]. now rewrite rev_involutive.
Qed.

Lemma rstrip_head (c : N) (s : str) :
  isspace c = false -> exists s', rstrip (c :: s) = c :: s'.
Proof.
  intros Hc. unfold rstrip. cbn [rev]. rewrite lstrip_app_last by exact Hc.
  rewrite rev_app_distr. cbn. now eexists.
Qed.

Lemma rstrip_idempotent (s : str) : rstrip (rstrip s) = rstrip s.
Proof. unfold rstrip. now rewrite rev_involutive, lstrip_idempotent. Qed.

(** What [strip] returns has no white space at either end: stripping it
    again changes nothing. *)
Lemma strip_idempotent (s : str) : strip (strip s) = strip s.
Proof.
  unfold strip. destruct (lstrip s) as [|c t] eqn:Hl; [reflexivity|].
  assert (Hc : isspace c = false).
  { destruct s as [|a s']; [discriminate|].
    assert (Hidem := lstrip_idempotent (a :: s')). rewrite Hl in Hidem.
    cbn in Hidem. destruct (isspace c); [|reflexivity].
    pose proof (part_of_length _ _ (lstrip_part t)) as Hlen.
    rewrite Hidem in Hlen. cbn in Hlen. lia. }
  destruct (rstrip_head c t Hc) as [t' Hr]. rewrite Hr.
  rewrite lstrip_head by exact Hc. rewrite <- Hr. apply rstrip_idempotent.
Qed.

(** A text that neither starts nor ends with white space is its own
    [strip]. *)
Lemma strip_tight (c d : N) (s : str) :
  isspace c = false -> isspace d = false -> strip (c :: s ++ [d]) = c :: s ++ [d].
Proof.
  intros Hc Hd. unfold strip. rewrite lstrip_head by exact Hc.
  change (c :: s ++ [d]) with ((c :: s) ++ [d]). now apply rstrip_last.
Qed.

Lemma startswith_app (p s : str) : startswith p (p ++ s) = true.
Proof. induction p as [|a p IH]; [reflexivity|]. cbn. now rewrite N.eqb_refl. Qed.

Lemma endswith_app (p s : str) : endswith p (s ++ p) = true.
Proof. unfold endswith. rewrite rev_app_distr. apply startswith_app. Qed.

Lemma drop_suffix_app (p s : str) : drop_suffix (length p) (s ++ p) = s.
Proof.
  unfold drop_suffix. rewrite length_app.
  replace (length s + length p - length p)%nat with (length s + 0)%nat by lia.
  rewrite firstn_app_2. cbn. apply app_nil_r.
Qed.

End Strings.

Section Parser.
Context `{PyRuntime}.

(** ** Fence stripping *)

Lemma strip_fences_part (s : str) : part_of (strip_fences s) s.
Proof.
  unfold strip_fences.
  eapply part_of_trans; [apply strip_part|].
  eapply part_of_trans; [|apply strip_part].
  set (t := strip s).
  assert (Hopen : part_of (if startswith (lit "```json") t then drop_prefix 7 t
                           else if startswith (lit "```") t then drop_prefix 3 t else t) t).
  { destruct (startswith (lit "```json") t); [apply part_of_skipn|].
    destruct (startswith (lit "```") t); [apply part_of_skipn | apply part_of_refl]. }
  eapply part_of_trans; [|exact Hopen].
  destruct (endswith _ _); [apply part_of_firstn | apply part_of_refl].
Qed.

(** X1: what [clean_json_string] returns for a text is a text made of
    consecutive characters of the input, without white space at either end;
    anything that is not a text comes back as it is. *)
Theorem clean_json_string_trims (json_str : value) :
  match json_str with
  | VStr s =>
      exists cleaned,
        clean_json_string json_str = VStr cleaned
        /\ part_of cleaned s
        /\ strip cleaned = cleaned
        /\ (length cleaned <= length s)%nat
  | _ => clean_json_string json_str = json_str
  end.
Proof.
  destruct json_str as [| b | n | f | s | items | d]; try reflexivity.
  exists (strip_fences s). split; [reflexivity|].
  split; [apply strip_fences_part|].
  split; [unfold strip_fences; apply strip_idempotent|].
  apply part_of_length, strip_fences_part.
Qed.

Lemma fence_tight (opening body : str) :
  opening = lit "```json" \/ opening = lit "```" ->
  strip (opening ++ body ++ lit "```") = opening ++ body ++ lit "```".
Proof.
  intros [-> | ->].
  - assert (E : lit "```json" ++ body ++ lit "```"
                = 96%N :: (lit "``json" ++ body ++ lit "``") ++ [96%N])
      by (cbn; rewrite <- app_assoc; reflexivity).
    rewrite E. now apply strip_tight.
  - assert (E : lit "```" ++ body ++ lit "```"
                = 96%N :: (lit "``" ++ body ++ lit "``") ++ [96%N])
      by (cbn; rewrite <- app_assoc; reflexivity).
    rewrite E. now apply strip_tight.
Qed.

Lemma startswith_app_both (p q s : str) : startswith (p ++ q) (p ++ s) = startswith q s.
Proof. induction p as [|a p IH]; [reflexivity|]. cbn. now rewrite N.eqb_refl. Qed.

Lemma drop_prefix_app (p s : str) : drop_prefix (length p) (p ++ s) = s.
Proof. unfold drop_prefix. induction p as [|a p IH]; [reflexivity|]. exact IH. Qed.

Lemma drop_closing_fence (s : str) : drop_suffix 3 (s ++ lit "```") = s.
Proof. exact (drop_suffix_app (lit "```") s). Qed.

Lemma drop_json_fence (s : str) : drop_prefix 7 (lit "```json" ++ s) = s.
Proof. exact (drop_prefix_app (lit "```json") s). Qed.

Lemma drop_bare_fence (s : str) : drop_prefix 3 (lit "```" ++ s) = s.
Proof. exact (drop_prefix_app (lit "```") s). Qed.

(** A text that is, white space aside, a body between an opening fence and
    a closing fence is cleaned to the body, trimmed. *)
Lemma strip_fences_fenced (s opening body : str) :
  opening = lit "```json"
  \/ (opening = lit "```" /\ startswith (lit "json") (body ++ lit "```") = false) ->
  strip s = opening ++ body ++ lit "```" ->
  strip_fences s = strip body.
Proof.
  intros Hopening Hs. unfold strip_fences. rewrite Hs.
  destruct Hopening as [-> | [-> Hbare]].
  - rewrite startswith_app, drop_json_fence, endswith_app. now rewrite drop_closing_fence.
  - change (lit "```json") with (lit "```" ++ lit "json").
    rewrite startswith_app_both, Hbare, startswith_app, drop_bare_fence, endswith_app.
    now rewrite drop_closing_fence.
Qed.

(** X2: a text that direct parsing refuses and that is, white space aside,
    a fenced block whose trimmed body decodes, is recovered by strategy 2
    as the decoded body. *)
Theorem try_parse_json_fenced (s opening body : str) (v : value) :
  opening = lit "```json"
  \/ (opening = lit "```" /\ startswith (lit "json") (body ++ lit "```") = false) ->
  strip s = opening ++ body ++ lit "```" ->
  strategy_1 s = Next ->
  json_loads (strip body) = Ok v ->
  try_parse_json (VStr s) = Ok v.
Proof.
  intros Hopening Hs Hdirect Hbody.
  assert (Hshorter : strip body <> s).
  { intros Heq.
    pose proof (part_of_length _ _ (strip_part body)) as Hb.
    pose proof (part_of_length _ _ (strip_part s)) as Hlen.
    rewrite Hs, !length_app in Hlen. rewrite Heq in Hb.
    assert (0 < length opening)%nat by (destruct Hopening as [-> | [-> _]]; cbn; lia).
    lia. }
  unfold try_parse_json. cbv zeta. rewrite Hdirect.
  rewrite (strip_fences_fenced s opening body Hopening Hs).
  unfold strategy_2. destruct (decide (strip body <> s)) as [_ | Hsame]; [|contradiction].
  unfold try_loads. now rewrite Hbody.
Qed.

(** ** Extraction between delimiters *)

Lemma find_from_first (c : N) (before rest : str) :
  absent c before = true ->
  forall i, find_from c (before ++ c :: rest) i = i + Z.of_nat (length before).
Proof.
  induction before as [|a before IH]; intros Habsent i; cbn.
  - rewrite N.eqb_refl. lia.
  - cbn in Habsent. apply andb_true_iff in Habsent as [Ha Hrest].
    apply negb_true_iff in Ha. rewrite Ha, IH by exact Hrest. lia.
Qed.

Lemma rfind_from_absent (c : N) (s : str) :
  absent c s = true -> forall i last, rfind_from c s i last = last.
Proof.
  induction s as [|a s IH]; intros Habsent i last; cbn; [reflexivity|].
  cbn in Habsent. apply andb_true_iff in Habsent as [Ha Hrest].
  apply negb_true_iff in Ha. now rewrite Ha, IH.
Qed.

Lemma rfind_from_last (c : N) (before after : str) :
  absent c after = true ->
  forall i last, rfind_from c (before ++ c :: after) i last = i + Z.of_nat (length before).
Proof.
  intros Habsent. induction before as [|a before IH]; intros i last; cbn.
  - rewrite N.eqb_refl, rfind_from_absent by exact Habsent. lia.
  - rewrite IH. lia.
Qed.

Lemma slice_middle (before middle after : str) :
  slice (Z.of_nat (length before)) (Z.of_nat (length before + length middle))
        (before ++ middle ++ after)
  = middle.
Proof.
  unfold slice. rewrite Nat2Z.id.
  replace (Z.to_nat (Z.of_nat (length before + length middle) - Z.of_nat (length before)))
    with (length middle) by lia.
  rewrite drop_app_length. apply take_app_length.
Qed.

(** Between a first [opening] and a last [closing], strategies 3 and 4
    decode exactly the text from the one to the other. *)
Lemma strategy_between_extracts (opening closing : N) (before middle after : str) :
  absent opening before = true ->
  absent closing after = true ->
  strategy_between opening closing (before ++ opening :: middle ++ closing :: after)
  = try_loads is_ValueError (opening :: middle ++ [closing]).
Proof.
  intros Hbefore Hafter.
  set (text := before ++ opening :: middle ++ closing :: after).
  assert (Hfind : find opening text = Z.of_nat (length before)).
  { unfold find, text. rewrite find_from_first by exact Hbefore. lia. }
  assert (Hrfind : rfind closing text = Z.of_nat (length before + S (length middle))).
  { unfold rfind, text.
    replace (before ++ opening :: middle ++ closing :: after)
      with ((before ++ opening :: middle) ++ closing :: after)
      by (now rewrite <- app_assoc).
    rewrite rfind_from_last by exact Hafter. rewrite length_app. cbn [length]. lia. }
  unfold strategy_between. cbv zeta. rewrite Hfind, Hrfind.
  replace (negb (Z.of_nat (length before) =? -1)) with true
    by (symmetry; apply negb_true_iff, Z.eqb_neq; lia).
  replace (negb (Z.of_nat (length before + S (length middle)) =? -1)) with true
    by (symmetry; apply negb_true_iff, Z.eqb_neq; lia).
  replace (Z.of_nat (length before) <? Z.of_nat (length before + S (length middle)))
    with true by (symmetry; apply Z.ltb_lt; lia).
  cbn [andb]. f_equal.
  replace (Z.of_nat (length before + S (length middle)) + 1)
    with (Z.of_nat (length before + length (opening :: middle ++ [closing])))
    by (cbn [length]; rewrite length_app; cbn [length]; lia).
  replace text with (before ++ (opening :: middle ++ [closing]) ++ after)
    by (unfold text; cbn; now rewrite <- app_assoc).
  apply slice_middle.
Qed.

(** X3: when direct parsing and the fence-stripped text fail, and the
    cleaned text holds an object between its first opening brace and its
    last closing brace, with anything but those braces around, the parser
    returns that object decoded. *)
Theorem try_parse_json_embedded_object (s before middle after : str) (v : value) :
  strip_fences s = before ++ lbrace :: middle ++ rbrace :: after ->
  absent lbrace before = true ->
  absent rbrace after = true ->
  strategy_1 s = Next ->
  strategy_2 s (strip_fences s) = Next ->
  json_loads (lbrace :: middle ++ [rbrace]) = Ok v ->
  try_parse_json (VStr s) = Ok v.
Proof.
  intros Hcleaned Hbefore Hafter Hdirect Hfenced Hobject.
  unfold try_parse_json. cbv zeta. rewrite Hdirect, Hfenced. cbn [or_else].
  unfold strategy_3. rewrite Hcleaned, strategy_between_extracts by assumption.
  unfold try_loads. now rewrite Hobject.
Qed.

(** X4: when, besides, the text between the braces does not decode (or
    there are no braces to try), an array between the first opening bracket
    and the last closing bracket is what the parser returns. *)
Theorem try_parse_json_embedded_array (s before middle after : str) (v : value) :
  strip_fences s = before ++ lbracket :: middle ++ rbracket :: after ->
  absent lbracket before = true ->
  absent rbracket after = true ->
  strategy_1 s = Next ->
  strategy_2 s (strip_fences s) = Next ->
  strategy_3 (strip_fences s) = Next ->
  json_loads (lbracket :: middle ++ [rbracket]) = Ok v ->
  try_parse_json (VStr s) = Ok v.
Proof.
  intros Hcleaned Hbefore Hafter Hdirect Hfenced Hbraces Harray.
  unfold try_parse_json. cbv zeta. rewrite Hdirect, Hfenced, Hbraces. cbn [or_else].
  unfold strategy_4. rewrite Hcleaned, strategy_between_extracts by assumption.
  unfold try_loads. now rewrite Harray.
Qed.

(** ** Where a result of the parser comes from *)

Lemma try_loads_sound (caught : exn -> bool) (text : str) (v : value) :
  try_loads caught text = Returned v -> json_loads text = Ok v.
Proof.
  unfold try_loads. destruct (json_loads text) as [v'|e]; [now intros [= ->]|].
  now destruct (caught e).
Qed.

Lemma scan_ends_sound (cleaned : str) (start_idx : nat) (ends : list nat) (v : value) :
  scan_ends cleaned start_idx ends = Returned v ->
  is_dict_or_list v = true
  /\ exists text, part_of text cleaned /\ json_loads text = Ok v.
Proof.
  induction ends as [|end_idx ends IH]; cbn; [discriminate|].
  destruct (json_loads _) as [v'|e] eqn:Eloads.
  - destruct (is_dict_or_list v') eqn:Ekind; [|exact IH].
    intros [= <-]. split; [exact Ekind|].
    eexists. split; [apply part_of_slice | exact Eloads].
  - destruct (is_ValueError e); [exact IH | discriminate].
Qed.

Lemma scan_starts_sound (cleaned : str) (starts : list nat) (v : value) :
  scan_starts cleaned starts = Returned v ->
  is_dict_or_list v = true
  /\ exists text, part_of text cleaned /\ json_loads text = Ok v.
Proof.
  induction starts as [|start_idx starts IH]; cbn; [discriminate|].
  destruct (scan_ends cleaned start_idx _) as [v' | e |] eqn:Eends.
  - intros [= <-]. now apply scan_ends_sound in Eends.
  - discriminate.
  - exact IH.
Qed.

Lemma strategy_6_sound (cleaned : str) (v : value) :
  strategy_6 cleaned = Returned v ->
  is_dict_or_list v = true
  /\ exists text, part_of text cleaned /\ json_loads text = Ok v.
Proof.
  unfold strategy_6. destruct (scan_starts cleaned _) as [v' | e |] eqn:Escan; try discriminate.
  intros [= <-]. now apply scan_starts_sound in Escan.
Qed.

Lemma strategy_between_sound (opening closing : N) (cleaned : str) (v : value) :
  strategy_between opening closing cleaned = Returned v ->
  exists text, part_of text cleaned /\ json_loads text = Ok v.
Proof.
  unfold strategy_between. destruct (_ && _); [|discriminate].
  intros Hloads. apply try_loads_sound in Hloads.
  eexists. split; [apply part_of_slice | exact Hloads].
Qed.

(** X5: what the parser returns for a text is that text, or a value that
    [json.loads] decoded from consecutive characters of it, or from its
    cleaned lines without the blank ones and the [#] ones: the parser makes
    up nothing of its own. *)
Theorem try_parse_json_sound (s : str) (v : value) :
  try_parse_json (VStr s) = Ok v ->
  v = VStr s
  \/ exists text,
       json_loads text = Ok v
       /\ (part_of text s
           \/ text = join [newline] (List.filter json_line (split newline (strip_fences s)))).
Proof.
  unfold try_parse_json. cbv zeta.
  destruct (strategy_1 s) as [v1 | e |] eqn:E1; cbn [or_else]; [| discriminate |].
  { intros [= <-]. right. exists s. split; [now apply try_loads_sound in E1|].
    left. apply part_of_refl. }
  destruct (strategy_2 s (strip_fences s)) as [v2 | e |] eqn:E2; cbn [or_else]; [| discriminate |].
  { intros [= <-]. right. exists (strip_fences s). unfold strategy_2 in E2.
    destruct (decide _); [|discriminate]. apply try_loads_sound in E2.
    split; [exact E2|]. left. apply strip_fences_part. }
  destruct (strategy_3 (strip_fences s)) as [v3 | e |] eqn:E3; cbn [or_else]; [| discriminate |].
  { intros [= <-]. right. apply strategy_between_sound in E3 as (text & Hpart & Hloads).
    exists text. split; [exact Hloads|]. left.
    eapply part_of_trans; [exact Hpart | apply strip_fences_part]. }
  destruct (strategy_4 (strip_fences s)) as [v4 | e |] eqn:E4; cbn [or_else]; [| discriminate |].
  { intros [= <-]. right. apply strategy_between_sound in E4 as (text & Hpart & Hloads).
    exists text. split; [exact Hloads|]. left.
    eapply part_of_trans; [exact Hpart | apply strip_fences_part]. }
  destruct (strategy_5 (strip_fences s)) as [v5 | e |] eqn:E5; cbn [or_else]; [| discriminate |].
  { intros [= <-]. right. unfold strategy_5 in E5. apply try_loads_sound in E5.
    eexists. split; [exact E5|]. now right. }
  destruct (strategy_6 (strip_fences s)) as [v6 | e |] eqn:E6; cbn [or_else]; [| discriminate |].
  { intros [= <-]. right. apply strategy_6_sound in E6 as (_ & text & Hpart & Hloads).
    exists text. split; [exact Hloads|]. left.
    eapply part_of_trans; [exact Hpart | apply strip_fences_part]. }
  intros [= <-]. now left.
Qed.

End Parser.

Section Extractor.
Context `{PyRuntime}.


Lemma text_parts_of_app (l1 l2 : list value) :
  text_parts_of (l1 ++ l2) = text_parts_of l1 ++ text_parts_of l2.
Proof.
  induction l1 as [|item l1 IH]; [reflexivity|]. cbn [text_parts_of app].
  destruct item as [| b | n | f | s | items | d]; try exact IH.
  - now rewrite IH.
  - destruct (dict_get (lit "text") d); [now rewrite IH|].
    destruct (dict_get (lit "content") d); [now rewrite IH | exact IH].
Qed.

Lemma all_strs_app (p1 p2 : list value) (s1 s2 : list str) :
  all_strs p1 = Some s1 -> all_strs p2 = Some s2 -> all_strs (p1 ++ p2) = Some (s1 ++ s2).
Proof.
  revert s1. induction p1 as [|p p1 IH]; intros s1; cbn.
  - now intros [= <-].
  - destruct p; try discriminate.
    destruct (all_strs p1) as [ss|]; [|discriminate].
    intros [= <-] H2. now rewrite (IH ss eq_refl H2).
Qed.

Lemma join_app (sep : str) (a b : list str) :
  a <> [] -> b <> [] -> join sep (a ++ b) = join sep a ++ sep ++ join sep b.
Proof.
  intros Ha Hb. induction a as [|x a IH]; [contradiction|].
  destruct a as [|y a].
  - cbn. destruct b; [contradiction|reflexivity].
  - change (join sep ((x :: y :: a) ++ b)) with (x ++ sep ++ join sep ((y :: a) ++ b)).
    rewrite IH by discriminate.
    change (join sep (x :: y :: a)) with (x ++ sep ++ join sep (y :: a)).
    now rewrite <- !app_assoc.
Qed.

Lemma all_strs_length (parts : list value) (ss : list str) :
  all_strs parts = Some ss -> length ss = length parts.
Proof.
  revert ss. induction parts as [|p parts IH]; intros ss; cbn.
  - now intros [= <-].
  - destruct p; try discriminate.
    destruct (all_strs parts) as [ss'|]; [|discriminate].
    intros [= <-]. cbn. now rewrite (IH ss' eq_refl).
Qed.

(** X7: the text of two lists of fragments put end to end is the text of
    the first, a line break, and the text of the second, when each of them
    has a fragment to take text from. *)
Theorem extract_text_content_app (l1 l2 : list value) (t1 t2 : str) :
  text_parts_of l1 <> [] ->
  text_parts_of l2 <> [] ->
  extract_text_content (VList l1) = Ok (VStr t1) ->
  extract_text_content (VList l2) = Ok (VStr t2) ->
  extract_text_content (VList (l1 ++ l2)) = Ok (VStr (t1 ++ [newline] ++ t2)).
Proof.
  intros H1 H2. unfold extract_text_content. cbv zeta. rewrite text_parts_of_app.
  destruct (text_parts_of l1) as [|p1 parts1] eqn:E1; [contradiction|].
  destruct (text_parts_of l2) as [|p2 parts2] eqn:E2; [contradiction|].
  unfold py_join.
  destruct (all_strs (p1 :: parts1)) as [s1|] eqn:Es1; [|discriminate].
  destruct (all_strs (p2 :: parts2)) as [s2|] eqn:Es2; [|discriminate].
  intros [= <-] [= <-].
  change ((p1 :: parts1) ++ p2 :: parts2) with ((p1 :: parts1) ++ (p2 :: parts2)).
  rewrite (all_strs_app _ _ _ _ Es1 Es2).
  apply all_strs_length in Es1, Es2.
  rewrite join_app; [reflexivity | |]; intros ->; discriminate.
Qed.

End Extractor.

Section Wrapper.
Context {W Model : Type} `{Oracle W Model}.

Lemma slept_app (l1 l2 : list event) : slept (l1 ++ l2) = slept l1 + slept l2.
Proof.
  induction l1 as [|ev l1 IH]; [reflexivity|]. cbn.
  destruct ev; rewrite IH; lia.
Qed.

Lemma slept_backoff_log (prompt : str) (initial_wait : Z) (errors : list exn) :
  forall attempt,
    0 <= attempt ->
    slept (backoff_log prompt initial_wait attempt errors)
    = initial_wait * (2 ^ (attempt + Z.of_nat (length errors)) - 2 ^ attempt).
Proof.
  induction errors as [|e errors IH]; intros attempt Hattempt.
  - cbn. rewrite Z.add_0_r. lia.
  - cbn [backoff_log slept length]. rewrite IH by lia.
    replace (attempt + Z.of_nat (S (length errors)))
      with (attempt + 1 + Z.of_nat (length errors)) by lia.
    rewrite (Z.pow_add_r 2 attempt 1) by lia. lia.
Qed.

(** X8: with a wait that is not negative, the time the wrapper spends
    sleeping is [initial_wait * (2 ^ n - 1)] for the [n] calls that failed
    and were tried again, which is never more than
    [initial_wait * (2 ^ (max_retries - 1) - 1)]. *)
Theorem invoke_model_with_retry_sleeps (model : Model) (prompt : str)
        (max_retries initial_wait : Z) (st st' : state W) (r : result (option response)) :
  0 <= initial_wait ->
  invoke_model_with_retry model prompt max_retries initial_wait st = (r, st') ->
  exists evs,
    log st' = log st ++ evs
    /\ slept evs = initial_wait * (2 ^ Z.of_nat (attempts evs - 1) - 1)
    /\ slept evs <= initial_wait * (2 ^ (Z.max 1 max_retries - 1) - 1).
Proof.
  intros Hwait Hrun. destruct (Z_le_gt_dec max_retries 0) as [Hnone | Hsome].
  - unfold invoke_model_with_retry in Hrun.
    replace (Z.to_nat max_retries) with 0%nat in Hrun by lia.
    injection Hrun as <- <-. exists []. rewrite app_nil_r.
    split; [reflexivity|].
    change (Z.of_nat (attempts [] - 1)) with 0. change (slept []) with 0.
    replace (Z.max 1 max_retries - 1) with 0 by lia.
    rewrite Z.pow_0_r. lia.
  - unfold invoke_model_with_retry in Hrun.
    apply retry_loop_spec in Hrun as [_ Hshape]; [|lia|lia].
    destruct Hshape as [(Hzero & _) | (errors & outcome & Hlog & _ & Hlen & _)]; [lia|].
    eexists. split; [exact Hlog|].
    rewrite slept_app, attempts_app, attempts_backoff_log, slept_backoff_log by lia.
    change (attempts [EAttempt (0 + Z.of_nat (length errors)) prompt outcome]) with 1%nat.
    change (slept [EAttempt (0 + Z.of_nat (length errors)) prompt outcome]) with 0.
    replace (length errors + 1 - 1)%nat with (length errors) by lia.
    rewrite Z.add_0_l, Z.pow_0_r, Z.add_0_r. split; [reflexivity|].
    apply Z.mul_le_mono_nonneg_l; [exact Hwait|].
    apply Z.sub_le_mono_r, Z.pow_le_mono_r; lia.
Qed.


(** X17: a call that fails with a message that cannot be printed is the
    last: the [UnicodeEncodeError] of the handler's [print] leaves the
    wrapper after it, whatever the calls still allowed and the wait. *)
Theorem invoke_model_with_retry_unprintable_raises (model : Model) (prompt : str)
        (max_retries initial_wait : Z) (st : state W) (e : exn) (w : W) :
  0 < max_retries ->
  invoke model prompt (world st) = (Unprintable e, w) ->
  invoke_model_with_retry model prompt max_retries initial_wait st
  = (Raise UnicodeEncodeError,
     {| world := w; log := log st ++ [EAttempt 0 prompt (Unprintable e)];
        stage_results := stage_results st |}).
Proof.
  intros Hmax Hcall. unfold invoke_model_with_retry.
  destruct (Z.to_nat max_retries) as [|remaining] eqn:Eremaining; [lia|].
  cbn [retry_loop]. unfold bind at 1. unfold model_invoke. now rewrite Hcall.
Qed.


End Wrapper.

Section Orchestration.
Context `{PyRuntime} `{Prompts} {W Model : Type} `{Oracle W Model}.

Lemma banners_app (l1 l2 : list event) : banners (l1 ++ l2) = banners l1 ++ banners l2.
Proof.
  induction l1 as [|ev l1 IH]; [reflexivity|]. cbn.
  destruct ev; rewrite IH; reflexivity.
Qed.

Lemma banners_calls_only (evs : list event) : calls_only evs = true -> banners evs = [].
Proof.
  induction evs as [|ev evs IH]; [reflexivity|]. cbn.
  destruct ev; try discriminate; exact IH.
Qed.

Lemma calls_only_app (l1 l2 : list event) :
  calls_only l1 = true -> calls_only l2 = true -> calls_only (l1 ++ l2) = true.
Proof.
  unfold calls_only. intros Hl1 Hl2. rewrite forallb_app. now rewrite Hl1, Hl2.
Qed.

(** The wrapper as the stages call it, with three calls allowed: however
    it ends, it has left the results alone and logged at most three calls
    and waits of at most three times [initial_wait] in all. *)
Lemma invoke_three_effects (model : Model) (prompt : str) (initial_wait : Z)
      (st st' : state W) (r : result (option response)) :
  0 <= initial_wait ->
  invoke_model_with_retry model prompt 3 initial_wait st = (r, st') ->
  exists evs,
    log st' = log st ++ evs
    /\ stage_results st' = stage_results st
    /\ calls_only evs = true
    /\ (attempts evs <= 3)%nat
    /\ slept evs <= 3 * initial_wait.
Proof.
  intros Hwait Hrun. unfold invoke_model_with_retry in Hrun.
  apply retry_loop_spec in Hrun as [Hres Hshape]; [|lia|lia].
  destruct Hshape as [(Hzero & _) | (errors & outcome & Hlog & _ & Hlen & _)];
    [discriminate|].
  change (Z.to_nat 3) with 3%nat in Hlen.
  eexists. split; [exact Hlog|]. split; [exact Hres|].
  split; [apply calls_only_app; [apply calls_only_backoff_log | reflexivity]|].
  rewrite attempts_app, attempts_backoff_log, slept_app, slept_backoff_log by lia.
  change (attempts [EAttempt (0 + Z.of_nat (length errors)) prompt outcome]) with 1%nat.
  change (slept [EAttempt (0 + Z.of_nat (length errors)) prompt outcome]) with 0.
  split; [lia|].
  rewrite Z.add_0_l, Z.pow_0_r, Z.add_0_r.
  assert (2 ^ Z.of_nat (length errors) <= 2 ^ 2) by (apply Z.pow_le_mono_r; lia).
  change (2 ^ 2) with 4 in *. nia.
Qed.

Lemma wait_of_nonneg (k : stage) : 0 <= wait_of k.
Proof. destruct k; cbn; lia. Qed.

(** All that a stage does: it never raises; it logs its banner, then at
    most three calls and the waits between them; it leaves the results as
    they are or stores one value under its own key, and what it returns,
    when that is true, is the value it has stored. *)
Lemma run_stage_effects (k : stage) (self : @pipeline Model) (a b : value)
      (st st' : state W) (r : result value) :
  run_stage k self a b st = (r, st') ->
  exists v evs,
    r = Ok v
    /\ log st' = log st ++ EStage (ordinal k) :: evs
    /\ calls_only evs = true
    /\ (attempts evs <= 3)%nat
    /\ slept evs <= 3 * wait_of k
    /\ ((stage_results st' = stage_results st /\ v = VNone)
        \/ exists stored_value,
             stage_results st' = <[key_of k := stored_value]> (stage_results st)
             /\ (v = stored_value \/ v = VNone)).
Proof.
  destruct (model_of k self) as [m|] eqn:Hmodel.
  2: { rewrite run_stage_skipped by now left. intros [= <- <-].
       exists VNone, []. pose proof (wait_of_nonneg k). cbn. repeat split; auto; lia. }
  destruct (inputs_present k a b) eqn:Hinputs.
  2: { rewrite run_stage_skipped by now right. intros [= <- <-].
       exists VNone, []. pose proof (wait_of_nonneg k). cbn. repeat split; auto; lia. }
  rewrite (run_stage_template k self a b st m Hmodel Hinputs).
  destruct (invoke_model_with_retry m (prompt_of k self a b) 3 (wait_of k) (entered k st))
    as [called s1] eqn:Hcall.
  destruct (invoke_three_effects m (prompt_of k self a b) (wait_of k) (entered k st)
              s1 called (wait_of_nonneg k) Hcall)
    as (evs & Hlog & Hres & Hcalls & Hattempts & Hslept).
  cbn [entered log stage_results] in Hlog, Hres.
  rewrite <- app_assoc in Hlog. cbn [app] in Hlog.
  unfold after_call.
  destruct called as [[resp|]|raised].
  - destruct (post_process k resp) as [v|e].
    + destruct (report_of k v); intros [= <- <-]; eexists; exists evs;
        (split; [reflexivity|]); cbn [log stage_results]; rewrite Hres;
        repeat (split; [assumption|]); right; exists v; split; auto.
    + intros [= <- <-]. exists VNone, evs. repeat (split; [assumption || reflexivity|]).
      left. now split.
  - intros [= <- <-]. exists VNone, evs. repeat (split; [assumption || reflexivity|]).
    left. now split.
  - intros [= <- <-]. exists VNone, evs. repeat (split; [assumption || reflexivity|]).
    left. now split.
Qed.

(** X10: a stage whose model is missing, or one of whose arguments is
    empty or [None], prints its banner and returns [None]: it calls no
    model, waits for nothing and stores nothing. *)
Theorem stage_without_inputs_calls_nothing (k : stage) (self : @pipeline Model) (a b : value)
        (st : state W) :
  model_of k self = None \/ inputs_present k a b = false ->
  run_stage k self a b st
  = (Ok VNone,
     {| world := world st; log := log st ++ [EStage (ordinal k)];
        stage_results := stage_results st |}).
Proof. intros Hskip. now rewrite run_stage_skipped. Qed.


(** X12: a stage that has stored its result and then fails on the progress
    line it prints about it returns [None] all the same: the run stops at
    that stage with the entry of the stage in the results. *)
Theorem stage_stores_then_fails (k : stage) (self : @pipeline Model) (a b : value)
        (st s1 : state W) (m : Model) (r : response) (v : value) (e : exn) :
  model_of k self = Some m ->
  inputs_present k a b = true ->
  invoke_model_with_retry m (prompt_of k self a b) 3 (wait_of k) (entered k st)
  = (Ok (Some r), s1) ->
  post_process k r = Ok v ->
  report_of k v = Raise e ->
  run_stage k self a b st
  = (Ok VNone,
     {| world := world s1; log := log s1;
        stage_results := <[key_of k := v]> (stage_results s1) |}).
Proof.
  intros Hmodel Hinputs Hcall Hpost Hreport.
  rewrite (run_stage_template k self a b st m Hmodel Hinputs), Hcall.
  unfold after_call. now rewrite Hpost, Hreport.
Qed.

(** X19: an exception that leaves the wrapper does not leave the stage: the
    stage returns [None], with nothing stored and nothing done after the
    wrapper. *)
Theorem stage_catches_wrapper (k : stage) (self : @pipeline Model) (a b : value)
        (st s1 : state W) (m : Model) (e : exn) :
  model_of k self = Some m ->
  inputs_present k a b = true ->
  invoke_model_with_retry m (prompt_of k self a b) 3 (wait_of k) (entered k st)
  = (Raise e, s1) ->
  run_stage k self a b st = (Ok VNone, s1).
Proof.
  intros Hmodel Hinputs Hcall.
  now rewrite (run_stage_template k self a b st m Hmodel Hinputs), Hcall.
Qed.

(** X13: a run that reports success has gone through the four stages, and
    each of them has stored, under its key, a value that is true. *)
Theorem run_full_pipeline_success (self : @pipeline Model) (st st' : state W) :
  run_full_pipeline self st = (Ok true, st') ->
  exists details questions answers scores,
    truthy details = true /\ truthy questions = true
    /\ truthy answers = true /\ truthy scores = true
    /\ stage_results st'
       = <[lit "scores" := scores]>
           (<[lit "answers" := answers]>
              (<[lit "questions" := questions]>
                 (<[lit "company_details" := details]> (stage_results st)))).
Proof.
  destruct (py_print (company_name self)) as [[]|e] eqn:Hprint;
    [|now rewrite (run_full_pipeline_refused self st e Hprint)].
  rewrite (run_full_pipeline_opens self st Hprint).
  unfold from_stage_1, bind at 1.
  destruct (stage_1_company_details self st) as [r1 s1] eqn:E1.
  destruct (run_stage_log Stage1 self VNone VNone _ _ _ E1) as ([v1 ->] & _).
  destruct (truthy v1) eqn:T1; cbn [negb]; [|discriminate].
  apply (run_stage_truthy Stage1 self VNone VNone) in E1; [|exact T1].
  unfold from_stage_2, bind at 1.
  destruct (stage_2_generate_questions self v1 s1) as [r2 s2] eqn:E2.
  destruct (run_stage_log Stage2 self v1 VNone _ _ _ E2) as ([v2 ->] & _).
  destruct (truthy v2) eqn:T2; cbn [negb]; [|discriminate].
  apply (run_stage_truthy Stage2 self v1 VNone) in E2; [|exact T2].
  unfold from_stage_3, bind at 1.
  destruct (stage_3_answer_questions self v1 v2 s2) as [r3 s3] eqn:E3.
  destruct (run_stage_log Stage3 self v1 v2 _ _ _ E3) as ([v3 ->] & _).
  destruct (truthy v3) eqn:T3; cbn [negb]; [|discriminate].
  apply (run_stage_truthy Stage3 self v1 v2) in E3; [|exact T3].
  unfold from_stage_4, bind.
  destruct (stage_4_score_results self v2 v3 s3) as [r4 s4] eqn:E4.
  destruct (run_stage_log Stage4 self v2 v3 _ _ _ E4) as ([v4 ->] & _).
  destruct (truthy v4) eqn:T4; cbn [negb]; [|discriminate].
  apply (run_stage_truthy Stage4 self v2 v3) in E4; [|exact T4].
  intros [= <-]. exists v1, v2, v3, v4. repeat (split; [assumption|]).
  cbn [key_of] in *. now rewrite E4, E3, E2, E1.
Qed.

Lemma run_within_last (self : @pipeline Model) (questions answers : value) :
  run_within 4 6 (from_stage_4 self questions answers).
Proof.
  intros st r st'. unfold from_stage_4, bind.
  destruct (stage_4_score_results self questions answers st) as [r4 s4] eqn:Hrun.
  apply (run_stage_effects Stage4) in Hrun
    as (v & evs & -> & Hlog & Hcalls & Hattempts & Hslept & _).
  cbn [ordinal wait_of] in *.
  assert (Hend : (if negb (truthy v) then ret false else ret true) s4
                 = (Ok (truthy v), s4)) by now destruct (truthy v).
  rewrite Hend. intros [= <- <-].
  exists (truthy v), (EStage 4 :: evs), 1%nat.
  split; [reflexivity|]. split; [exact Hlog|].
  split; [cbn; now rewrite banners_calls_only|].
  repeat (split; [lia|]). split; [exact Hattempts | exact Hslept].
Qed.

Lemma run_within_step (k : stage) (self : @pipeline Model) (a b : value)
      (rest : value -> M W bool) (budget : Z) :
  0 <= budget ->
  (ordinal k < 4)%nat ->
  (forall v, run_within (S (ordinal k)) budget (rest v)) ->
  run_within (ordinal k) (3 * wait_of k + budget)
    (bind (run_stage k self a b) (fun v => if negb (truthy v) then ret false else rest v)).
Proof.
  intros Hbudget Hk Hrest st r st'. unfold bind.
  destruct (run_stage k self a b st) as [rk sk] eqn:Hrun.
  apply run_stage_effects in Hrun
    as (v & evs & -> & Hlog & Hcalls & Hattempts & Hslept & _).
  destruct (truthy v); cbn [negb].
  - intros Hnext. apply Hrest in Hnext
      as (b' & evs' & n & -> & Hlog' & Hbanners & Hone & Hfive & Htrue & Hattempts' & Hslept').
    exists b', ((EStage (ordinal k) :: evs) ++ evs'), (S n).
    split; [reflexivity|].
    split; [rewrite Hlog', Hlog; now rewrite <- app_assoc|].
    split; [rewrite banners_app; cbn; now rewrite banners_calls_only, Hbanners|].
    split; [lia|]. split; [lia|]. split; [intros Hb; specialize (Htrue Hb); lia|].
    rewrite attempts_app, slept_app.
    change (attempts (EStage (ordinal k) :: evs)) with (attempts evs).
    change (slept (EStage (ordinal k) :: evs)) with (slept evs).
    split; lia.
  - intros [= <- <-]. exists false, (EStage (ordinal k) :: evs), 1%nat.
    split; [reflexivity|]. split; [exact Hlog|].
    split; [cbn; now rewrite banners_calls_only|].
    split; [lia|]. split; [lia|]. split; [discriminate|].
    change (attempts (EStage (ordinal k) :: evs)) with (attempts evs).
    change (slept (EStage (ordinal k) :: evs)) with (slept evs).
    split; lia.
Qed.

Lemma run_within_whole (self : @pipeline Model) : run_within 1 27 (from_stage_1 self).
Proof.
  apply (run_within_step Stage1 self VNone VNone _ 21); [lia | cbn; lia |].
  intros details.
  apply (run_within_step Stage2 self details VNone _ 15); [lia | cbn; lia |].
  intros questions.
  apply (run_within_step Stage3 self details questions _ 6); [lia | cbn; lia |].
  intros answers. apply run_within_last.
Qed.

(** X14: when the name of the company holds a character that
    [sys.stdout] cannot encode, the [UnicodeEncodeError] of the opening line
    ends the run with nothing done.  A run that returns has entered the
    stages in their order, from stage 1 on, each once and none left out, as
    far as it got; a run that reports success has entered all four. *)
Theorem run_full_pipeline_in_order (self : @pipeline Model) (st st' : state W)
        (r : result bool) :
  run_full_pipeline self st = (r, st') ->
  (forallb stdout_encodes (company_name self) = false ->
   r = Raise UnicodeEncodeError /\ st' = st)
  /\ forall b,
       r = Ok b ->
       exists evs n,
         log st' = log st ++ evs
         /\ banners evs = seq 1 n
         /\ (1 <= n <= 4)%nat
         /\ (b = true -> n = 4%nat).
Proof.
  unfold run_full_pipeline, bind at 1, lift, py_print.
  destruct (forallb stdout_encodes (company_name self)).
  - intros Hrun. split; [discriminate|]. intros b ->.
    apply run_within_whole in Hrun
      as (b' & evs & n & [= <-] & Hlog & Hbanners & Hone & Hfive & Htrue & _).
    exists evs, n. split; [exact Hlog|].
    split; [exact Hbanners|]. split; [lia|].
    intros Hb. specialize (Htrue Hb). lia.
  - intros [= <- <-]. split; [now split | discriminate].
Qed.

(** X15: a run makes at most twelve calls of a model and sleeps for at most
    27 seconds in all between them. *)
Theorem run_full_pipeline_budget (self : @pipeline Model) (st st' : state W)
        (r : result bool) :
  run_full_pipeline self st = (r, st') ->
  exists evs,
    log st' = log st ++ evs
    /\ (attempts evs <= 12)%nat
    /\ slept evs <= 27.
Proof.
  destruct (py_print (company_name self)) as [[]|e] eqn:Hprint.
  - rewrite (run_full_pipeline_opens self st Hprint).
    intros Hrun. apply run_within_whole in Hrun
      as (b & evs & n & _ & Hlog & _ & _ & Hfive & _ & Hattempts & Hslept).
    exists evs. split; [exact Hlog|]. split; [lia | exact Hslept].
  - rewrite (run_full_pipeline_refused self st e Hprint). intros [= <- <-].
    exists []. rewrite app_nil_r. cbn. repeat split; lia.
Qed.

(** A run that has reached stage [k] has entered the stages before it, in
    order, and holds their entries. *)
Lemma reached_invariant (self : @pipeline Model) (st sk : state W) (k : stage) (a b : value) :
  reached self st k a b sk ->
  exists evs,
    log sk = log st ++ evs
    /\ banners evs = seq 1 (ordinal k - 1)
    /\ dom (stage_results sk) = dom (stage_results st) ∪ keys_before k.
Proof.
  induction 1 as [Hprint | cd s1 Hprint Hrun Htrue | cd unused q s1 s2 _ IH Hrun Htrue
                  | cd q ans s2 s3 _ IH Hrun Htrue]; cbn [ordinal keys_before Nat.sub].
  - exists []. rewrite app_nil_r. split; [reflexivity|]. split; [reflexivity|]. set_solver.
  - pose proof (run_stage_truthy Stage1 self VNone VNone _ _ _ Hrun Htrue) as Hres.
    apply (run_stage_effects Stage1 self VNone VNone) in Hrun
      as (v & evs & _ & Hlog & Hcalls & _).
    exists (EStage 1 :: evs). split; [exact Hlog|].
    split; [cbn; now rewrite banners_calls_only|].
    rewrite Hres, dom_insert_L. cbn [key_of]. set_solver.
  - destruct IH as (evs0 & Hlog0 & Hbanners0 & Hdom0).
    pose proof (run_stage_truthy Stage2 self cd VNone _ _ _ Hrun Htrue) as Hres.
    apply (run_stage_effects Stage2 self cd VNone) in Hrun
      as (v & evs & _ & Hlog & Hcalls & _).
    exists (evs0 ++ EStage 2 :: evs).
    split; [rewrite Hlog, Hlog0; now rewrite <- app_assoc|].
    split; [rewrite banners_app, Hbanners0; cbn; now rewrite banners_calls_only|].
    rewrite Hres, dom_insert_L, Hdom0. cbn [key_of keys_before]. set_solver.
  - destruct IH as (evs0 & Hlog0 & Hbanners0 & Hdom0).
    pose proof (run_stage_truthy Stage3 self cd q _ _ _ Hrun Htrue) as Hres.
    apply (run_stage_effects Stage3 self cd q) in Hrun
      as (v & evs & _ & Hlog & Hcalls & _).
    exists (evs0 ++ EStage 3 :: evs).
    split; [rewrite Hlog, Hlog0; now rewrite <- app_assoc|].
    split; [rewrite banners_app, Hbanners0; cbn; now rewrite banners_calls_only|].
    rewrite Hres, dom_insert_L, Hdom0. cbn [key_of keys_before]. set_solver.
Qed.

(** X16: when a run from a fresh pipeline has reached a stage and the calls
    of that stage run out of retries, the run reports failure there: the
    stages entered are those up to that one, in order, and the results hold
    the entries of the stages before it and no other. *)
Theorem run_halts_at_failed_stage (k : stage) (self : @pipeline Model) (w : W) (a b : value)
        (sk s2 : state W) (m : Model) :
  reached self (fresh w) k a b sk ->
  model_of k self = Some m ->
  invoke_model_with_retry m (prompt_of k self a b) 3 (wait_of k) (entered k sk)
  = (Ok None, s2) ->
  run_full_pipeline self (fresh w) = (Ok false, s2)
  /\ banners (log s2) = seq 1 (ordinal k)
  /\ dom (stage_results s2) = keys_before k.
Proof.
  intros Hreached Hmodel Hcall.
  pose proof (reached_inputs_present _ _ _ _ _ _ Hreached) as Hinputs.
  assert (Hstage : run_stage k self a b sk = (Ok VNone, s2)).
  { rewrite (run_stage_template k self a b sk m Hmodel Hinputs). now rewrite Hcall. }
  split.
  { rewrite (run_full_pipeline_resume _ _ _ _ _ _ Hreached).
    destruct k; cbn [resume run_stage] in *;
      unfold from_stage_1, from_stage_2, from_stage_3, from_stage_4, bind;
      now rewrite Hstage. }
  apply invoke_model_with_retry_quiet in Hcall as (evs2 & Hlog2 & Hcalls2 & Hres2).
  destruct (reached_invariant _ _ _ _ _ _ Hreached) as (evs & Hlog & Hbanners & Hdom).
  split.
  - rewrite Hlog2. cbn [entered log]. rewrite Hlog. cbn [fresh log app].
    rewrite !banners_app, Hbanners, (banners_calls_only evs2 Hcalls2). cbn [banners].
    rewrite app_nil_r. destruct k; reflexivity.
  - rewrite Hres2. cbn [entered stage_results]. rewrite Hdom. cbn [fresh stage_results].
    rewrite dom_empty_L. set_solver.
Qed.

End Orchestration.

(** * Further runs *)

Section FurtherExamples.
#[local] Existing Instance ReferenceRuntime.
#[local] Existing Instance SamplePrompts.
#[local] Existing Instance Scripted.

(** ** Recovery parser *)

Lemma try_parse_json_fenced_witness :
  strip (lit "  ```json" ++ [newline] ++ lit "[1, 2]" ++ [newline] ++ lit "```" ++ [newline])
  = lit "```json" ++ ([newline] ++ lit "[1, 2]" ++ [newline]) ++ lit "```"
  /\ try_parse_json
       (VStr (lit "  ```json" ++ [newline] ++ lit "[1, 2]" ++ [newline] ++ lit "```" ++ [newline]))
     = Ok (VList [VInt 1; VInt 2]).
Proof.
  split; [vm_compute; reflexivity|].
  apply (try_parse_json_fenced
           (lit "  ```json" ++ [newline] ++ lit "[1, 2]" ++ [newline] ++ lit "```" ++ [newline])
           (lit "```json") ([newline] ++ lit "[1, 2]" ++ [newline]) (VList [VInt 1; VInt 2])).
  - left; reflexivity.
  - vm_compute; reflexivity.
  - vm_compute; reflexivity.
  - vm_compute; reflexivity.
Defined.

Lemma try_parse_json_embedded_object_witness :
  json_loads (lbrace :: ([Json.quote] ++ lit "x" ++ [Json.quote] ++ lit ": 2") ++ [rbrace])
  = Ok (VDict [(lit "x", VInt 2)])
  /\ try_parse_json
       (VStr (lit "Sure! Here it is: " ++ lbrace
                :: ([Json.quote] ++ lit "x" ++ [Json.quote] ++ lit ": 2")
                ++ rbrace :: lit " Hope that helps."))
     = Ok (VDict [(lit "x", VInt 2)]).
Proof.
  split; [vm_compute; reflexivity|].
  apply (try_parse_json_embedded_object
           (lit "Sure! Here it is: " ++ lbrace
              :: ([Json.quote] ++ lit "x" ++ [Json.quote] ++ lit ": 2")
              ++ rbrace :: lit " Hope that helps.")
           (lit "Sure! Here it is: ")
           ([Json.quote] ++ lit "x" ++ [Json.quote] ++ lit ": 2")
           (lit " Hope that helps.")
           (VDict [(lit "x", VInt 2)]));
    vm_compute; reflexivity.
Defined.

Lemma try_parse_json_embedded_array_witness :
  strategy_3 (strip_fences (lit "see [1, 2] and {bad}")) = Next
  /\ try_parse_json (VStr (lit "see [1, 2] and {bad}")) = Ok (VList [VInt 1; VInt 2]).
Proof.
  split; [vm_compute; reflexivity|].
  apply (try_parse_json_embedded_array (lit "see [1, 2] and {bad}")
           (lit "see ") (lit "1, 2") (lit " and {bad}") (VList [VInt 1; VInt 2]));
    vm_compute; reflexivity.
Defined.

Lemma try_parse_json_sound_witness :
  try_parse_json (VStr (lit "see [1, 2] and {bad}")) = Ok (VList [VInt 1; VInt 2])
  /\ (VList [VInt 1; VInt 2] = VStr (lit "see [1, 2] and {bad}")
      \/ exists text,
           json_loads text = Ok (VList [VInt 1; VInt 2])
           /\ (part_of text (lit "see [1, 2] and {bad}")
               \/ text = join [newline]
                           (List.filter json_line
                              (split newline (strip_fences (lit "see [1, 2] and {bad}")))))).
Proof.
  assert (Hrun : try_parse_json (VStr (lit "see [1, 2] and {bad}")) = Ok (VList [VInt 1; VInt 2]))
    by (vm_compute; reflexivity).
  split; [exact Hrun|].
  apply (try_parse_json_sound (lit "see [1, 2] and {bad}") (VList [VInt 1; VInt 2])).
  vm_compute; reflexivity.
Defined.

(** ** Text extractor *)


Lemma extract_text_content_app_witness :
  extract_text_content (VList [VStr (lit "a"); VInt 3]) = Ok (VStr (lit "a"))
  /\ extract_text_content (VList [VDict [(lit "content", VStr (lit "b"))]]) = Ok (VStr (lit "b"))
  /\ extract_text_content
       (VList ([VStr (lit "a"); VInt 3] ++ [VDict [(lit "content", VStr (lit "b"))]]))
     = Ok (VStr (lit "a" ++ [newline] ++ lit "b")).
Proof.
  split; [reflexivity|]. split; [reflexivity|].
  apply (extract_text_content_app [VStr (lit "a"); VInt 3]
           [VDict [(lit "content", VStr (lit "b"))]] (lit "a") (lit "b"));
    (discriminate || reflexivity).
Defined.

(** ** Invocation wrapper *)

Lemma invoke_model_with_retry_sleeps_witness :
  0 <= 2
  /\ exists evs,
       log (snd (invoke_model_with_retry tt (lit "prompt") 3 2
                   (fresh [Failed OtherException; Failed OtherException; says "done"])))
       = [] ++ evs
       /\ slept evs = 2 * (2 ^ Z.of_nat (attempts evs - 1) - 1)
       /\ slept evs <= 2 * (2 ^ (Z.max 1 3 - 1) - 1).
Proof.
  split; [lia|].
  apply (invoke_model_with_retry_sleeps tt (lit "prompt") 3 2
           (fresh [Failed OtherException; Failed OtherException; says "done"])
           (snd (invoke_model_with_retry tt (lit "prompt") 3 2
                   (fresh [Failed OtherException; Failed OtherException; says "done"])))
           (Ok (Some {| content := VStr (lit "done") |}))).
  - lia.
  - reflexivity.
Defined.


Lemma invoke_model_with_retry_unprintable_raises_witness :
  0 < 3
  /\ invoke_model_with_retry tt (lit "prompt") 3 2
       (fresh [Unprintable OtherException; says "done"])
     = (Raise UnicodeEncodeError,
        {| world := [says "done"];
           log := [] ++ [EAttempt 0 (lit "prompt") (Unprintable OtherException)];
           stage_results := ∅ |}).
Proof.
  split; [lia|].
  apply (invoke_model_with_retry_unprintable_raises tt (lit "prompt") 3 2
           (fresh [Unprintable OtherException; says "done"]) OtherException [says "done"]).
  - lia.
  - reflexivity.
Defined.


(** ** Stages and orchestrator *)

(** Stage 1 is answered with a failure whose message cannot be printed:
    the wrapper raises, the stage returns [None]. *)
Lemma stage_catches_wrapper_witness :
  model_of Stage1 sample_pipeline = Some tt
  /\ inputs_present Stage1 VNone VNone = true
  /\ invoke_model_with_retry tt (prompt_of Stage1 sample_pipeline VNone VNone) 3
       (wait_of Stage1) (entered Stage1 (fresh [Unprintable OtherException; says "details"]))
     = (Raise UnicodeEncodeError,
        {| world := [says "details"];
           log := [EStage 1;
                   EAttempt 0 (stage_1_prompt sample_pipeline) (Unprintable OtherException)];
           stage_results := ∅ |})
  /\ run_stage Stage1 sample_pipeline VNone VNone
       (fresh [Unprintable OtherException; says "details"])
     = (Ok VNone,
        {| world := [says "details"];
           log := [EStage 1;
                   EAttempt 0 (stage_1_prompt sample_pipeline) (Unprintable OtherException)];
           stage_results := ∅ |}).
Proof.
  split; [reflexivity|]. split; [reflexivity|]. split; [reflexivity|].
  apply (stage_catches_wrapper Stage1 sample_pipeline VNone VNone
           (fresh [Unprintable OtherException; says "details"])
           {| world := [says "details"];
              log := [EStage 1;
                      EAttempt 0 (stage_1_prompt sample_pipeline)
                        (Unprintable OtherException)];
              stage_results := ∅ |}
           tt UnicodeEncodeError);
    reflexivity.
Defined.

Lemma stage_without_inputs_calls_nothing_witness :
  (model_of Stage2 sample_pipeline = None \/ inputs_present Stage2 (VStr []) VNone = false)
  /\ run_stage Stage2 sample_pipeline (VStr []) VNone (fresh [says "unused"])
     = (Ok VNone,
        {| world := [says "unused"]; log := [] ++ [EStage 2]; stage_results := ∅ |}).
Proof.
  split; [right; reflexivity|].
  apply (stage_without_inputs_calls_nothing Stage2 sample_pipeline (VStr []) VNone
           (fresh [says "unused"])).
  right; reflexivity.
Defined.


Lemma stage_stores_then_fails_witness :
  report_of Stage1 (VInt 5) = Raise TypeError
  /\ run_stage Stage1 sample_pipeline VNone VNone
       (fresh [Responded {| content := VDict [(lit "text", VInt 5)] |}])
     = (Ok VNone,
        {| world := [];
           log := [EStage 1;
                   EAttempt 0 (stage_1_prompt sample_pipeline)
                     (Responded {| content := VDict [(lit "text", VInt 5)] |})];
           stage_results := <[lit "company_details" := VInt 5]> ∅ |}).
Proof.
  split; [reflexivity|].
  apply (stage_stores_then_fails Stage1 sample_pipeline VNone VNone
           (fresh [Responded {| content := VDict [(lit "text", VInt 5)] |}])
           {| world := [];
              log := [EStage 1;
                      EAttempt 0 (stage_1_prompt sample_pipeline)
                        (Responded {| content := VDict [(lit "text", VInt 5)] |})];
              stage_results := ∅ |}
           tt {| content := VDict [(lit "text", VInt 5)] |} (VInt 5) TypeError);
    reflexivity.
Defined.

Lemma run_full_pipeline_success_witness :
  fst (run_full_pipeline sample_pipeline
         (fresh [says "details"; says "[1]"; says "[2]"; says "[3]"])) = Ok true
  /\ exists details questions answers scores,
       truthy details = true /\ truthy questions = true
       /\ truthy answers = true /\ truthy scores = true
       /\ stage_results
            (snd (run_full_pipeline sample_pipeline
                    (fresh [says "details"; says "[1]"; says "[2]"; says "[3]"])))
          = <[lit "scores" := scores]>
              (<[lit "answers" := answers]>
                 (<[lit "questions" := questions]>
                    (<[lit "company_details" := details]> ∅))).
Proof.
  split; [vm_compute; reflexivity|].
  apply (run_full_pipeline_success sample_pipeline
           (fresh [says "details"; says "[1]"; says "[2]"; says "[3]"])
           (snd (run_full_pipeline sample_pipeline
                   (fresh [says "details"; says "[1]"; says "[2]"; says "[3]"])))).
  vm_compute; reflexivity.
Defined.

(** A run that stops at stage 2, and a pipeline whose company has a lone
    surrogate for a name: the opening line cannot be printed. *)
Lemma run_full_pipeline_in_order_witness :
  (fst (run_full_pipeline sample_pipeline (fresh [says "details"; says_nothing])) = Ok false
   /\ exists evs n,
        log (snd (run_full_pipeline sample_pipeline (fresh [says "details"; says_nothing])))
        = [] ++ evs
        /\ banners evs = seq 1 n
        /\ (1 <= n <= 4)%nat
        /\ (false = true -> n = 4%nat))
  /\ (forallb stdout_encodes [55296%N] = false
      /\ run_full_pipeline
           {| company_name := [55296%N]; stage_1_model := Some tt; stage_2_model := Some tt;
              stage_3_model := Some tt; stage_4_model := Some tt |}
           (fresh [says "details"])
         = (Raise UnicodeEncodeError, fresh [says "details"])).
Proof.
  split.
  - split; [vm_compute; reflexivity|].
    assert (Hrun :
      run_full_pipeline sample_pipeline (fresh [says "details"; says_nothing])
      = (Ok false,
         snd (run_full_pipeline sample_pipeline (fresh [says "details"; says_nothing]))))
      by (vm_compute; reflexivity).
    exact (proj2 (run_full_pipeline_in_order _ _ _ _ Hrun) false eq_refl).
  - split; [reflexivity|].
    destruct (run_full_pipeline
                {| company_name := [55296%N]; stage_1_model := Some tt;
                   stage_2_model := Some tt; stage_3_model := Some tt;
                   stage_4_model := Some tt |}
                (fresh [says "details"])) as [r st'] eqn:Hrun.
    destruct (proj1 (run_full_pipeline_in_order _ _ _ _ Hrun) eq_refl) as [-> ->].
    reflexivity.
Defined.

Lemma run_full_pipeline_budget_witness :
  exists evs,
    log (snd (run_full_pipeline sample_pipeline (fresh [says "details"]))) = [] ++ evs
    /\ (attempts evs <= 12)%nat
    /\ slept evs <= 27.
Proof.
  apply (run_full_pipeline_budget sample_pipeline (fresh [says "details"])
           (snd (run_full_pipeline sample_pipeline (fresh [says "details"])))
           (Ok false)).
  vm_compute; reflexivity.
Defined.

Lemma run_halts_at_failed_stage_witness :
  reached sample_pipeline (fresh [says "details"; says "[1]"]) Stage3
    (VStr (lit "details")) (VList [VInt 1])
    (snd (stage_2_generate_questions sample_pipeline (VStr (lit "details"))
            (snd (stage_1_company_details sample_pipeline
                    (fresh [says "details"; says "[1]"])))))
  /\ fst (run_full_pipeline sample_pipeline (fresh [says "details"; says "[1]"])) = Ok false
  /\ banners (log (snd (run_full_pipeline sample_pipeline
                          (fresh [says "details"; says "[1]"])))) = seq 1 3
  /\ dom (stage_results (snd (run_full_pipeline sample_pipeline
                                (fresh [says "details"; says "[1]"]))))
     = keys_before Stage3.
Proof.
  assert (Hreached :
    reached sample_pipeline (fresh [says "details"; says "[1]"]) Stage3
      (VStr (lit "details")) (VList [VInt 1])
      (snd (stage_2_generate_questions sample_pipeline (VStr (lit "details"))
              (snd (stage_1_company_details sample_pipeline
                      (fresh [says "details"; says "[1]"])))))).
  { apply (reached_3 sample_pipeline _ (VStr (lit "details")) VNone (VList [VInt 1])
             (snd (stage_1_company_details sample_pipeline
                     (fresh [says "details"; says "[1]"])))).
    - apply reached_2; vm_compute; reflexivity.
    - vm_compute; reflexivity.
    - reflexivity. }
  split; [exact Hreached|].
  destruct (run_halts_at_failed_stage Stage3 sample_pipeline [says "details"; says "[1]"]
              (VStr (lit "details")) (VList [VInt 1])
              (snd (stage_2_generate_questions sample_pipeline (VStr (lit "details"))
                      (snd (stage_1_company_details sample_pipeline
                              (fresh [says "details"; says "[1]"])))))
              (snd (invoke_model_with_retry tt
                      (prompt_of Stage3 sample_pipeline (VStr (lit "details")) (VList [VInt 1]))
                      3 (wait_of Stage3)
                      (entered Stage3
                         (snd (stage_2_generate_questions sample_pipeline (VStr (lit "details"))
                                 (snd (stage_1_company_details sample_pipeline
                                         (fresh [says "details"; says "[1]"]))))))))
              tt Hreached)
    as (Hrun & Hbanners & Hdom).
  - reflexivity.
  - vm_compute; reflexivity.
  - rewrite Hrun. cbn [fst snd]. repeat split; assumption.
Defined.

End FurtherExamples.
